(** * Apteryx client library (apteryx.c): a shallow embedding

    The client half of the Apteryx path:value store.  Every public call of
    apteryx.c validates its path, connects to the broker, sends one request
    and waits for the closure to run.  The process-wide variables of the
    file become a record that is threaded through the calls; the RPC stubs
    generated from the protobuf schema and the two calls of the RPC
    layer, [rpc_connect_service] and [rpc_provide_service], which are not
    part of apteryx.c, are taken as a [transport] parameter.

    What is kept and what is not:
    - a call either returns or is aborted by [assert]; the asserts of the
      path checks are guarded by the [debug] flag, as in the source;
    - what leaves the process (connection attempts, requests) and what the
      listener does (callbacks, acknowledgements, thread start and stop)
      is recorded as a trace of events; the text printed by [DEBUG] and
      [ERROR] is not;
    - [int] is 32 bits wide and wraps, [long], [size_t] and pointers are 64
      bits wide; allocation never fails; what lies in memory behind a
      buffer is a parameter;
    - threads are not interleaved: when [start_client_thread] returns,
      the listener is taken to have reached its service, or its end if
      [pipe] or [rpc_provide_service] failed, and whether it leaves by
      itself when asked to stop is a parameter;
    - the broker itself is not in the sources; where a statement needs
      one, [Broker] below is written from the specification. *)

From Stdlib Require Import ZArith String Ascii List Lia Bool.
From Stdlib Require Import DecimalString DecimalPos.
From Stdlib Require Import Strings.Byte.
From stdpp Require Import gmap strings list fin_maps.
Import ListNotations.

Local Open Scope string_scope.
Local Open Scope Z_scope.

(** ** C data *)

(** A value is a buffer of bytes together with its length. *)
Abbreviation bytes := (list Byte.byte).

(** [size_t] lengths and [uint64_t] handles are integers. *)
Definition size_of (v : bytes) : Z := Z.of_nat (List.length v).

Definition wrap_unsigned (bits z : Z) : Z := z mod 2 ^ bits.

Definition wrap_signed (bits z : Z) : Z :=
  (z + 2 ^ (bits - 1)) mod 2 ^ bits - 2 ^ (bits - 1).

(** [int] is 32 bits wide, [long] and pointers 64 bits (LP64). *)
Definition INT_MIN : Z := - 2 ^ 31.
Definition INT_MAX : Z := 2 ^ 31 - 1.
Definition LONG_MIN : Z := - 2 ^ 63.
Definition LONG_MAX : Z := 2 ^ 63 - 1.

Definition int_range (z : Z) : Prop := INT_MIN <= z <= INT_MAX.

(** The casts [(uint64_t) (long) p] and [(void * ) (long) u]. *)
Definition long_of_ptr (p : Z) : Z := wrap_signed 64 p.
Definition uint64_of_long (l : Z) : Z := wrap_unsigned 64 l.
Definition long_of_uint64 (u : Z) : Z := wrap_signed 64 u.
Definition ptr_of_long (l : Z) : Z := wrap_unsigned 64 l.

Definition handle_of_ptr (p : Z) : Z := uint64_of_long (long_of_ptr p).
Definition ptr_of_handle (u : Z) : Z := ptr_of_long (long_of_uint64 u).

Definition is_pointer (p : Z) : Prop := 0 <= p < 2 ^ 64.

(** ** C strings *)

Definition slash : ascii := "/"%char.

(** [path[0] != '/'], the empty string has [path[0] == 0]. *)
Definition not_slash_first (path : string) : bool :=
  match path with
  | EmptyString => true
  | String c _ => negb (Ascii.eqb c slash)
  end.

(** [path[strlen (path) - 1]] of a string that is not empty. *)
Fixpoint last_char (path : string) : option ascii :=
  match path with
  | EmptyString => None
  | String c EmptyString => Some c
  | String _ rest => last_char rest
  end.

Definition not_slash_last (path : string) : bool :=
  match last_char path with
  | Some c => negb (Ascii.eqb c slash)
  | None => true
  end.

(** [strstr (hay, needle) != NULL]. *)
Fixpoint strstr (hay needle : string) : bool :=
  String.prefix needle hay ||
  match hay with
  | EmptyString => false
  | String _ rest => strstr rest needle
  end.

(** [strcmp (a, b) == 0]. *)
Definition strcmp0 (a b : string) : bool := String.eqb a b.

(** [asprintf (&full_path, "%s/%s", path, key)] and its one-argument
    form; the result is the string and its length. *)
Definition full_path_of (path : string) (key : option string) : string :=
  match key with
  | Some k => path ++ "/" ++ k
  | None => path
  end.

Definition strlen (s : string) : Z := Z.of_nat (String.length s).

(** ** libc *)

Definition is_space (b : Byte.byte) : bool :=
  let n := Z.of_N (Byte.to_N b) in (n =? 32) || ((9 <=? n) && (n <=? 13)).

Definition digit_of (b : Byte.byte) : option Z :=
  let n := Z.of_N (Byte.to_N b) in
  if (48 <=? n) && (n <=? 57) then Some (n - 48) else None.

Fixpoint skip_spaces (s : bytes) : bytes :=
  match s with
  | b :: rest => if is_space b then skip_spaces rest else s
  | [] => []
  end.

Fixpoint digits_value (acc : Z) (s : bytes) : Z :=
  match s with
  | b :: rest =>
      match digit_of b with
      | Some d => digits_value (10 * acc + d) rest
      | None => acc
      end
  | [] => acc
  end.

(** [strtol (s, NULL, 10)] on the bytes that start at [s]: blanks, a
    sign, digits; the value is clamped to the range of [long].  The list
    is the memory from [s] on, and its end reads as a NUL. *)
Definition strtol (s : bytes) : Z :=
  let s := skip_spaces s in
  let '(neg, s) :=
    match s with
    | b :: rest =>
        if Byte.eqb b "-"%byte then (true, rest)
        else if Byte.eqb b "+"%byte then (false, rest)
        else (false, s)
    | [] => (false, s)
    end in
  let v := digits_value 0 s in
  Z.max LONG_MIN (Z.min LONG_MAX (if neg then - v else v)).

(** [atoi (s)] is [(int) strtol (s, NULL, 10)]. *)
Definition atoi (s : bytes) : Z := wrap_signed 32 (strtol s).

(** [asprintf (&v, "%d", value)]: the decimal digits of an [int]. *)
Definition sprintf_d (value : Z) : bytes :=
  list_byte_of_string (NilZero.string_of_int (Z.to_int value)).

Definition NUL : Byte.byte := "000"%byte.

(** The part of a buffer that ["%.*s"] prints: up to the first NUL. *)
Fixpoint until_nul (s : bytes) : bytes :=
  match s with
  | b :: rest => if Byte.eqb b NUL then [] else b :: until_nul rest
  | [] => []
  end.

(** ** Messages of apteryx.proto, as apteryx.c fills and reads them *)

Record Apteryx__Set := { set_path : string; set_value : bytes }.
Record Apteryx__Get := { get_path : string }.
Record Apteryx__Search := { search_path : string }.
Record Apteryx__Prune := { prune_path : string }.
Record Apteryx__Watch :=
  { watch_path : string; watch_value : bytes;
    watch_id : Z; watch_cb : Z; watch_priv : Z }.
Record Apteryx__Provide :=
  { provide_path : string; provide_id : Z; provide_cb : Z; provide_priv : Z }.

Record Apteryx__OKResult := APTERYX__OKRESULT__INIT { }.
Record Apteryx__GetResult := { result_value : bytes }.
Record Apteryx__SearchResult := { result_paths : list string }.

Inductive request :=
| ReqSet (m : Apteryx__Set)
| ReqGet (m : Apteryx__Get)
| ReqSearch (m : Apteryx__Search)
| ReqPrune (m : Apteryx__Prune)
| ReqWatch (m : Apteryx__Watch)
| ReqProvide (m : Apteryx__Provide).

(** What happens to the closure handed to a stub: it is never run
    (no response, time out), or it is run with a result, which is NULL
    when the request could not be processed. *)
Inductive rpc_result (R : Type) :=
| NoResponse
| Closure (r : option R).
Arguments NoResponse {R}.
Arguments Closure {R} r.

(** ** Observable events *)

Inductive event :=
| EvConnect (ok : bool)
| EvRpc (r : request)
| EvWatchCb (cb : Z) (path : string) (priv : Z) (value : option bytes) (len : Z)
| EvProvideCb (cb : Z) (path : string) (priv : Z)
| EvOKResult
| EvGetResult (value : option bytes) (len : Z)
| EvThreadCreate (tid : Z)
| EvStopSignal (fd : Z)
| EvThreadExit (tid : Z)
| EvThreadCancel (tid : Z)
| EvDump (path : string) (value : bytes)
| EvNotify (pattern : string) (m : Apteryx__Watch)
| EvAsk (m : Apteryx__Provide).

(** ** The RPC stubs *)

(** [rpc_connect_service] yields a client or NULL; a stub takes the
    request to the broker and runs the closure.  [B] is the state of what
    lies outside the process: the broker, and the endpoints that it can
    reach.  Callbacks that the broker triggers while it serves the
    request are reported as events.

    [rpc_provide_service], which the listener thread calls with the name
    of the process, is not in the sources either.  It serves the
    endpoint of the process until a byte arrives on the pipe.  Its start
    is [rpc_provide_service]: the state outside with the endpoint up, or
    [None] when the service cannot start and the call returns false at
    once.  [rpc_service_gone] is the state outside once the call has
    returned, or its thread has been cancelled. *)
Record transport (B : Type) := {
  rpc_connect_service : B -> bool;
  apteryx__server__set :
    Apteryx__Set -> B -> B * list event * rpc_result Apteryx__OKResult;
  apteryx__server__get :
    Apteryx__Get -> B -> B * list event * rpc_result Apteryx__GetResult;
  apteryx__server__search :
    Apteryx__Search -> B -> B * list event * rpc_result Apteryx__SearchResult;
  apteryx__server__prune :
    Apteryx__Prune -> B -> B * list event * rpc_result Apteryx__OKResult;
  apteryx__server__watch :
    Apteryx__Watch -> B -> B * list event * rpc_result Apteryx__OKResult;
  apteryx__server__provide :
    Apteryx__Provide -> B -> B * list event * rpc_result Apteryx__OKResult;
  rpc_provide_service : Z -> B -> option B;
  rpc_service_gone : Z -> B -> B
}.
Arguments rpc_connect_service {B}.
Arguments apteryx__server__set {B}.
Arguments apteryx__server__get {B}.
Arguments apteryx__server__search {B}.
Arguments apteryx__server__prune {B}.
Arguments apteryx__server__watch {B}.
Arguments apteryx__server__provide {B}.
Arguments rpc_provide_service {B}.
Arguments rpc_service_gone {B}.

(** ** Process state *)

(** The file-scope variables of apteryx.c. *)
Record globals := {
  debug : bool;
  ref_count : Z;
  stopfd : Z;
  client_thread : Z;
  thread_running : bool
}.

Definition initial_globals : globals :=
  {| debug := false; ref_count := 0; stopfd := -1;
     client_thread := -1; thread_running := false |}.

(** What the build and the operating system decide: whether assert.h
    was read with NDEBUG defined, the process id, the calling thread, the
    thread [pthread_create] makes, the descriptors [pipe] returns (if it
    succeeds), whether the listener leaves by itself within the five
    seconds [stop_client_thread] waits, and the bytes that lie in memory
    behind a buffer that [malloc] returned. *)
Record env := {
  NDEBUG : bool;
  pid : Z;
  self : Z;
  new_thread : Z;
  pipefd : option (Z * Z);
  listener_exits : bool;
  heap_after : bytes
}.

Record world (B : Type) := {
  glob : globals;
  broker : B;
  trace : list event
}.
Arguments glob {B}.
Arguments broker {B}.
Arguments trace {B}.

(** A call returns, or the process is aborted by a failed [assert].
    What [DEBUG] and [ERROR] print is not kept. *)
Inductive outcome (A : Type) :=
| Returned (a : A)
| Aborted.
Arguments Returned {A} a.
Arguments Aborted {A}.

(** ** A monad for calls: state passing with abort *)

Section Calls.
Context {B : Type}.

Definition call (A : Type) : Type := world B -> outcome (A * world B).

Definition ret {A} (a : A) : call A := fun w => Returned (a, w).

Definition bind {A C} (m : call A) (k : A -> call C) : call C :=
  fun w =>
    match m w with
    | Returned (a, w') => k a w'
    | Aborted => Aborted
    end.

(** [assert (c)] of assert.h: nothing when NDEBUG is defined, else
    [abort ()] when [c] is false. *)
Definition c_assert (e : env) (c : bool) : call unit :=
  fun w => if NDEBUG e || c then Returned (tt, w) else Aborted.

Definition get_glob : call globals := fun w => Returned (glob w, w).

Definition put_glob (g : globals) : call unit :=
  fun w => Returned (tt, {| glob := g; broker := broker w; trace := trace w |}).

Definition emit (evs : list event) : call unit :=
  fun w =>
    Returned (tt, {| glob := glob w; broker := broker w;
                     trace := (trace w ++ evs)%list |}).

(** Run a stub on the broker: the request leaves the process, the broker
    state moves on, and the closure's fate comes back. *)
Definition invoke {R} (r : request)
    (stub : B -> B * list event * rpc_result R) : call (rpc_result R) :=
  fun w =>
    let '(b, evs, res) := stub (broker w) in
    Returned (res, {| glob := glob w; broker := b;
                      trace := (trace w ++ EvRpc r :: evs)%list |}).

End Calls.

Notation "x <~ m ;; k" := (bind m (fun x => k))
  (at level 100, m at next level, right associativity).
Notation "m ;;; k" := (bind m (fun _ => k))
  (at level 100, right associativity).

(** ** The listener thread *)

Definition set_ref_count (n : Z) (g : globals) : globals :=
  {| debug := debug g; ref_count := n; stopfd := stopfd g;
     client_thread := client_thread g; thread_running := thread_running g |}.

Definition set_debug (d : bool) (g : globals) : globals :=
  {| debug := d; ref_count := ref_count g; stopfd := stopfd g;
     client_thread := client_thread g; thread_running := thread_running g |}.

Definition set_stopfd (fd : Z) (g : globals) : globals :=
  {| debug := debug g; ref_count := ref_count g; stopfd := fd;
     client_thread := client_thread g; thread_running := thread_running g |}.

Definition set_client_thread (t : Z) (g : globals) : globals :=
  {| debug := debug g; ref_count := ref_count g; stopfd := stopfd g;
     client_thread := t; thread_running := thread_running g |}.

Definition set_thread_running (r : bool) (g : globals) : globals :=
  {| debug := debug g; ref_count := ref_count g; stopfd := stopfd g;
     client_thread := client_thread g; thread_running := r |}.

(** [listen_thread_handler] after [rpc_provide_service] has returned. *)
Definition listen_thread_handler_cleanup (g : globals) : globals :=
  set_client_thread (-1) (set_thread_running false (set_stopfd (-1) g)).

(** The name of the process's endpoint: [(uint64_t) getpid ()]. *)
Definition service_id (e : env) : Z := wrap_unsigned 64 (pid e).

(** [rpc_provide_service (service_name, ...)] is entered: it serves, or
    it fails at once. *)
Definition provide_service {B} (T : transport B) (e : env)
    : call (B := B) bool :=
  fun w =>
    match rpc_provide_service T (service_id e) (broker w) with
    | Some b =>
        Returned (true, {| glob := glob w; broker := b; trace := trace w |})
    | None => Returned (false, w)
    end.

(** The service has returned, or its thread is no more. *)
Definition service_gone {B} (T : transport B) (e : env) : call (B := B) unit :=
  fun w =>
    Returned (tt, {| glob := glob w;
                     broker := rpc_service_gone T (service_id e) (broker w);
                     trace := trace w |}).

(** [listen_thread_handler] up to the point where it serves requests,
    or to its end when it does not get there: when [pipe] fails it
    returns at once, and when [rpc_provide_service] fails it cleans up
    and returns. *)
Definition listen_thread_handler_begin {B} (T : transport B) (e : env)
    : call (B := B) unit :=
  match pipefd e with
  | None => ret tt
  | Some (_, wfd) =>
      g <~ get_glob ;;
      put_glob (set_thread_running true (set_stopfd wfd g)) ;;;
      serving <~ provide_service T e ;;
      if serving then ret tt
      else
        g <~ get_glob ;;
        put_glob (listen_thread_handler_cleanup g)
  end.

(** The new thread is taken to have reached its service loop, or its
    end, when the [usleep] of the starter is over. *)
Definition start_client_thread {B} (T : transport B) (e : env)
    : call (B := B) unit :=
  g <~ get_glob ;;
  if thread_running g then ret tt
  else
    put_glob (set_client_thread (new_thread e) g) ;;;
    emit [EvThreadCreate (new_thread e)] ;;;
    listen_thread_handler_begin T e.

(** The listener that is told to stop leaves [rpc_provide_service] and
    cleans up, or is cancelled after the wait. *)
Definition stop_client_thread {B} (T : transport B) (e : env)
    : call (B := B) unit :=
  g <~ get_glob ;;
  if thread_running g && negb (client_thread g =? -1)
     && negb (client_thread g =? self e)
  then
    put_glob (set_thread_running false g) ;;;
    emit [EvStopSignal (stopfd g)] ;;;
    service_gone T e ;;;
    if listener_exits e then
      g1 <~ get_glob ;;
      put_glob (listen_thread_handler_cleanup g1) ;;;
      emit [EvThreadExit (client_thread g)]
    else
      emit [EvThreadCancel (client_thread g)]
  else ret tt.

(** ** Callbacks run by the listener *)

(** [apteryx__watch]: the callback is called, unless its handle is
    null, and the closure acknowledges. *)
Definition apteryx__watch (watch : Apteryx__Watch) : list event :=
  let cb := ptr_of_handle (watch_cb watch) in
  let '(value, vsize) :=
    if negb (size_of (watch_value watch) =? 0)
    then (Some (watch_value watch), size_of (watch_value watch))
    else (None, 0) in
  (if negb (cb =? 0)
   then [EvWatchCb cb (watch_path watch) (ptr_of_handle (watch_priv watch))
           value vsize]
   else []) ++ [EvOKResult].

(** A provide callback leaves a buffer in [*value] and its length in
    [*size], or leaves them NULL and 0. *)
Definition provider := Z -> string -> Z -> option bytes.

(** [apteryx__provide]: the result carries what the callback left in
    [value] and [vsize], which start as NULL and 0. *)
Definition apteryx__provide (user : provider) (provide : Apteryx__Provide)
    : list event * Apteryx__GetResult :=
  let cb := ptr_of_handle (provide_cb provide) in
  let priv := ptr_of_handle (provide_priv provide) in
  let value := if negb (cb =? 0) then user cb (provide_path provide) priv
               else None in
  let vsize := size_of (default [] value) in
  (((if negb (cb =? 0) then [EvProvideCb cb (provide_path provide) priv]
     else []) ++ [EvGetResult value vsize])%list,
   {| result_value := default [] value |}).

(** ** Closures of the client calls *)

Definition handle_ok_response (result : option Apteryx__OKResult)
    (closure_data : bool) : bool := true.

Record get_data_t :=
  { data_value : option bytes; data_length : Z; data_done : bool }.

Definition handle_get_response (result : option Apteryx__GetResult)
    (data : get_data_t) : get_data_t :=
  match result with
  | None =>
      {| data_value := data_value data; data_length := data_length data;
         data_done := true |}
  | Some r =>
      if negb (size_of (result_value r) =? 0)
      then {| data_value := Some (result_value r);
              data_length := size_of (result_value r); data_done := true |}
      else {| data_value := data_value data;
              data_length := data_length data; data_done := true |}
  end.

Record search_data_t := { data_paths : list string; search_done : bool }.

(** [g_list_append] of a copy of every path, in order. *)
Definition handle_search_response (result : option Apteryx__SearchResult)
    (data : search_data_t) : search_data_t :=
  match result with
  | None => {| data_paths := []; search_done := true |}
  | Some r =>
      {| data_paths := fold_left (fun l p => (l ++ [p])%list) (result_paths r) [];
         search_done := true |}
  end.

(** The closure is run by the stub or not at all. *)
Definition run_closure {R D} (h : option R -> D -> D) (res : rpc_result R)
    (d : D) : D :=
  match res with
  | NoResponse => d
  | Closure r => h r d
  end.

(** ** The public calls *)

Section Client.
Context {B : Type} (T : transport B) (e : env).

Abbreviation call' := (call (B := B)).

(** [rpc_connect_service (APTERYX_SERVER, ...)]: true for a client. *)
Definition connect : call' bool :=
  fun w =>
    let ok := rpc_connect_service T (broker w) in
    Returned (ok, {| glob := glob w; broker := broker w;
                     trace := (trace w ++ [EvConnect ok])%list |}).

Definition debug_flag : call' bool := g <~ get_glob ;; ret (debug g).

Definition apteryx_init (debug_enabled : bool) : call' bool :=
  g <~ get_glob ;;
  put_glob (set_debug (debug g || debug_enabled)
              (set_ref_count (wrap_signed 32 (ref_count g + 1)) g)) ;;;
  ret true.

Definition apteryx_shutdown : call' bool :=
  g <~ get_glob ;;
  if ref_count g <=? 0 then ret false
  else
    put_glob (set_ref_count (wrap_signed 32 (ref_count g - 1)) g) ;;;
    g <~ get_glob ;;
    if 0 <? ref_count g then ret true
    else
      stop_client_thread T e ;;;
      g <~ get_glob ;;
      put_glob (set_thread_running false g) ;;;
      ret true.

Definition apteryx_prune (path : string) : call' bool :=
  if not_slash_first path then
    d <~ debug_flag ;;
    c_assert e (negb d || negb (not_slash_first path)) ;;;
    ret false
  else
    rpc_client <~ connect ;;
    if negb rpc_client then ret false
    else
      let prune := {| prune_path := path |} in
      res <~ invoke (ReqPrune prune) (apteryx__server__prune T prune) ;;
      let is_done := run_closure handle_ok_response res false in
      if negb is_done then ret false else ret true.

Definition apteryx_set (path : string) (value : bytes) : call' bool :=
  if not_slash_first path then
    d <~ debug_flag ;;
    c_assert e (negb d || negb (not_slash_first path)) ;;;
    ret false
  else
    rpc_client <~ connect ;;
    if negb rpc_client then ret false
    else
      let set := {| set_path := path; set_value := value |} in
      res <~ invoke (ReqSet set) (apteryx__server__set T set) ;;
      let is_done := run_closure handle_ok_response res false in
      if negb is_done then ret false else ret true.

(** The caller's [*value] and [*size]. *)
Record outputs := { out_value : option bytes; out_size : Z }.

Definition apteryx_get (path : string) (out : outputs)
    : call' (bool * outputs) :=
  let data := {| data_value := None; data_length := 0; data_done := false |} in
  if not_slash_first path then
    d <~ debug_flag ;;
    c_assert e (negb d || negb (not_slash_first path)) ;;;
    ret (false, out)
  else
    let out := {| out_value := None; out_size := 0 |} in
    rpc_client <~ connect ;;
    if negb rpc_client then ret (false, out)
    else
      let get := {| get_path := path |} in
      res <~ invoke (ReqGet get) (apteryx__server__get T get) ;;
      let data := run_closure handle_get_response res data in
      if negb (data_done data) then ret (false, out)
      else
        let out := {| out_value := data_value data;
                      out_size := data_length data |} in
        ret (match out_value out with Some _ => true | None => false end, out).

(** The special roots of [apteryx_search] and [apteryx_watch]; [None]
    is the NULL pointer. *)
Definition is_root (path : option string) : bool :=
  match path with
  | None => true
  | Some p =>
      strcmp0 p "/" || strcmp0 p "/*" || strcmp0 p "*" || (strlen p =? 0)
  end.

Definition apteryx_search (path : option string) : call' (list string) :=
  let data := {| data_paths := []; search_done := false |} in
  let go (path : string) : call' (list string) :=
    rpc_client <~ connect ;;
    if negb rpc_client then ret []
    else
      let search := {| search_path := path |} in
      res <~ invoke (ReqSearch search) (apteryx__server__search T search) ;;
      let data := run_closure handle_search_response res data in
      if negb (search_done data) then ret [] else ret (data_paths data) in
  if is_root path then go ""
  else
    let p := default "" path in
    if not_slash_first p || not_slash_last p || strstr p "//" then
      d <~ debug_flag ;;
      c_assert e (negb d || negb (not_slash_first p)) ;;;
      c_assert e (negb d || negb (not_slash_last p)) ;;;
      c_assert e (negb d || negb (strstr p "//")) ;;;
      ret []
    else go p.

Definition apteryx_watch (path : option string) (cb priv : Z) : call' bool :=
  let empty_root := "/*" in
  let path := if is_root path then empty_root else default "" path in
  if not_slash_first path then
    d <~ debug_flag ;;
    c_assert e (negb d || negb (not_slash_first path)) ;;;
    ret false
  else
    rpc_client <~ connect ;;
    if negb rpc_client then ret false
    else
      let watch :=
        {| watch_path := path; watch_value := [];
           watch_id := wrap_unsigned 64 (pid e);
           watch_cb := handle_of_ptr cb; watch_priv := handle_of_ptr priv |} in
      res <~ invoke (ReqWatch watch) (apteryx__server__watch T watch) ;;
      let is_done := run_closure handle_ok_response res false in
      if negb is_done then ret false
      else
        (if negb (cb =? 0) then start_client_thread T e else ret tt) ;;;
        ret true.

Definition apteryx_provide (path : string) (cb priv : Z) : call' bool :=
  if not_slash_first path then
    d <~ debug_flag ;;
    c_assert e (negb d || negb (not_slash_first path)) ;;;
    ret false
  else
    rpc_client <~ connect ;;
    if negb rpc_client then ret false
    else
      let provide :=
        {| provide_path := path; provide_id := wrap_unsigned 64 (pid e);
           provide_cb := handle_of_ptr cb;
           provide_priv := handle_of_ptr priv |} in
      res <~ invoke (ReqProvide provide) (apteryx__server__provide T provide) ;;
      let is_done := run_closure handle_ok_response res false in
      if negb is_done then ret false
      else
        (if negb (cb =? 0) then start_client_thread T e else ret tt) ;;;
        ret true.

(** *** Helpers layered on [apteryx_set] and [apteryx_get] *)

Definition apteryx_set_int (path : string) (key : option string) (value : Z)
    : call' bool :=
  let full_path := full_path_of path key in
  let len := strlen full_path in
  if negb (len =? 0) then
    let v := sprintf_d value in
    apteryx_set full_path (v ++ [NUL])%list
  else ret false.

(** [value] is a C string or NULL; [strlen (value) + 1] bytes are sent. *)
Definition apteryx_set_string (path : string) (key : option string)
    (value : option string) : call' bool :=
  let full_path := full_path_of path key in
  let len := strlen full_path in
  if negb (len =? 0) then
    apteryx_set full_path
      match value with
      | Some s => (list_byte_of_string s ++ [NUL])%list
      | None => []
      end
  else ret false.

(** [atoi] reads the copy of the value as a C string: when the value
    holds no NUL it reads on into what lies behind the buffer. *)
Definition apteryx_get_int (path : string) (key : option string) : call' Z :=
  let full_path := full_path_of path key in
  let len := strlen full_path in
  let value := -1 in
  if negb (len =? 0) then
    r <~ apteryx_get full_path {| out_value := None; out_size := len |} ;;
    match r with
    | (true, {| out_value := Some v |}) => ret (atoi (v ++ heap_after e))
    | _ => ret value
    end
  else ret value.

Definition apteryx_get_string (path : string) (key : option string)
    : call' (option bytes) :=
  let full_path := full_path_of path key in
  let len := strlen full_path in
  if negb (len =? 0) then
    r <~ apteryx_get full_path {| out_value := None; out_size := len |} ;;
    ret (if fst r then out_value (snd r) else None)
  else ret None.

(** [apteryx_dump] walks the tree the broker reports, which need not be
    finite: the walk is cut after [fuel] levels, and [None] says so. *)
Fixpoint apteryx_dump (fuel : nat) (path : string) : call' (option bool) :=
  match fuel with
  | O => ret None
  | S fuel =>
      g <~ get_glob ;;
      if ref_count g <=? 0 then
        c_assert e (0 <? ref_count g) ;;;
        ret (Some false)
      else
        r <~ apteryx_get path {| out_value := None; out_size := 0 |} ;;
        match r with
        | (true, {| out_value := Some v; out_size := size |}) =>
            emit [EvDump path (until_nul (take (Z.to_nat size) v))]
        | _ => ret tt
        end ;;;
        children <~ apteryx_search (Some path) ;;
        (fix walk (iter : list string) : call' (option bool) :=
           match iter with
           | [] => ret (Some true)
           | child :: rest =>
               let _path := child ++ "/" in
               if negb (strlen _path =? 0) then
                 r <~ apteryx_dump fuel _path ;;
                 match r with
                 | None => ret None
                 | Some _ => walk rest
                 end
               else walk rest
           end) children
  end.

End Client.

(** ** Sequences of calls *)

Inductive api_call :=
| CallInit (debug_enabled : bool)
| CallShutdown
| CallPrune (path : string)
| CallDump (fuel : nat) (path : string)
| CallSet (path : string) (value : bytes)
| CallSetInt (path : string) (key : option string) (value : Z)
| CallSetString (path : string) (key : option string) (value : option string)
| CallGet (path : string) (out : outputs)
| CallGetInt (path : string) (key : option string)
| CallGetString (path : string) (key : option string)
| CallSearch (path : option string)
| CallWatch (path : option string) (cb priv : Z)
| CallProvide (path : string) (cb priv : Z).

Section Run.
Context {B : Type} (T : transport B).

Definition forget {A} (m : call (B := B) A) : call unit := m ;;; ret tt.

Definition run_call (e : env) (c : api_call) : call (B := B) unit :=
  match c with
  | CallInit d => forget (apteryx_init d)
  | CallShutdown => forget (apteryx_shutdown T e)
  | CallPrune p => forget (apteryx_prune T e p)
  | CallDump fuel p => forget (apteryx_dump T e fuel p)
  | CallSet p v => forget (apteryx_set T e p v)
  | CallSetInt p k v => forget (apteryx_set_int T e p k v)
  | CallSetString p k v => forget (apteryx_set_string T e p k v)
  | CallGet p out => forget (apteryx_get T e p out)
  | CallGetInt p k => forget (apteryx_get_int T e p k)
  | CallGetString p k => forget (apteryx_get_string T e p k)
  | CallSearch p => forget (apteryx_search T e p)
  | CallWatch p cb priv => forget (apteryx_watch T e p cb priv)
  | CallProvide p cb priv => forget (apteryx_provide T e p cb priv)
  end.

Fixpoint run_calls (cs : list (env * api_call)) : call (B := B) unit :=
  match cs with
  | [] => ret tt
  | (e, c) :: rest => run_call e c ;;; run_calls rest
  end.

End Run.

(** ** The broker

    The server process is not part of apteryx.c: its state and its
    request handlers are written here from sections 3 and 4 of the
    specification. *)

Module Broker.

(** Modelled from the spec: the broker process (missing from the
    sources).  Its state is the path-indexed store of section 4.1, kept
    as the map from paths to their non-empty values, and the two
    registries of sections 4.3 and 4.4, keyed by (pattern, client id) and
    holding (callback handle, private token).  With it goes what the
    broker finds when it calls out: the clients whose listener answers
    at its published name, section 6, and whether a listener that
    starts can publish its name at all. *)
Record state := {
  accepting : bool;
  db : gmap string bytes;
  watchers : gmap (string * Z) (Z * Z);
  providers : gmap (string * Z) (Z * Z);
  listening : gset Z;
  can_publish : bool
}.

(** Modelled from the spec: a broker that holds nothing (missing from
    the sources). *)
Definition empty : state :=
  {| accepting := true; db := ∅; watchers := ∅; providers := ∅;
     listening := ∅; can_publish := true |}.

(** Modelled from the spec: Path of section 3 (the broker, which is what
    gives paths their meaning, is missing from the sources): it begins
    with [/], holds no [//], and its last segment is not empty. *)
Definition valid_path (path : string) : bool :=
  negb (not_slash_first path) && negb (strstr path "//")
  && not_slash_last path.

(** Modelled from the spec: whether a string ends in another one, for
    the matching rules of section 4.3 (the broker is missing from the
    sources). *)
Definition ends_with (suffix s : string) : bool :=
  (String.length suffix <=? String.length s)%nat &&
  String.eqb
    (String.substring (String.length s - String.length suffix)
       (String.length suffix) s) suffix.

(** Modelled from the spec: the pattern without its last character
    (the broker is missing from the sources). *)
Definition chop (s : string) : string :=
  String.substring 0 (String.length s - 1) s.

(** Modelled from the spec: section 4.3, the broker's matching of a
    stored pattern against a mutated path (missing from the sources): the
    pattern equals the path, is one of the everything patterns, ends in
    [/] and is a prefix of the path, or ends in [/*] and its prefix is a
    prefix of the path. *)
Definition matches (pattern path : string) : bool :=
  String.eqb pattern path
  || (String.eqb pattern "*" || String.eqb pattern "/"
      || String.eqb pattern "/*" || String.eqb pattern "")
  || (ends_with "/" pattern && String.prefix pattern path)
  || (ends_with "/*" pattern && String.prefix (chop pattern) path).

(** Modelled from the spec: section 4.1, set of the path store (the
    broker is missing from the sources): a value of length 0 deletes. *)
Definition c1_set (path : string) (v : bytes) (d : gmap string bytes)
    : gmap string bytes :=
  if size_of v =? 0 then delete path d else <[path := v]> d.

(** Modelled from the spec: the rows of the watcher registry whose
    pattern matches a path, section 4.2 step 2 (the broker is missing
    from the sources). *)
Definition matched (path : string) (w : gmap (string * Z) (Z * Z))
    : list (string * Z * (Z * Z)) :=
  List.filter (fun row => matches (fst (fst row)) path) (map_to_list w).

(** Modelled from the spec: the message of one notification, section
    4.2 (the broker is missing from the sources): path, value, and the
    row's client id, callback handle and private token, verbatim. *)
Definition notification (path : string) (v : bytes)
    (row : string * Z * (Z * Z)) : Apteryx__Watch :=
  {| watch_path := path; watch_value := v; watch_id := snd (fst row);
     watch_cb := fst (snd row); watch_priv := snd (snd row) |}.

(** Modelled from the spec: one synchronous outbound call, sections
    4.2, 4.6 and 5 (the broker is missing from the sources): when the
    listener of the watcher's client answers, it runs [apteryx__watch]
    on the message; when it does not, the call fails or times out,
    nothing runs, and the broker goes on. *)
Definition deliver (up : gset Z) (path : string) (v : bytes)
    (row : string * Z * (Z * Z)) : list event :=
  EvNotify (fst (fst row)) (notification path v row)
  :: (if decide (snd (fst row) ∈ up)
      then apteryx__watch (notification path v row)
      else []).

(** Modelled from the spec: SET of section 4.2 (the broker is missing
    from the sources): store, compute the matches, notify each, reply
    OK. *)
Definition serve_set (m : Apteryx__Set) (s : state)
    : state * list event * rpc_result Apteryx__OKResult :=
  ({| accepting := accepting s;
      db := c1_set (set_path m) (set_value m) (db s);
      watchers := watchers s; providers := providers s;
      listening := listening s; can_publish := can_publish s |},
   List.flat_map (deliver (listening s) (set_path m) (set_value m))
     (matched (set_path m) (watchers s)),
   Closure (Some APTERYX__OKRESULT__INIT)).

(** Modelled from the spec: GET of section 4.2 (the broker is missing
    from the sources): the stored value, else what a provider registered
    on exactly this path returns when its listener answers, else an
    empty value. *)
Definition serve_get (user : provider) (m : Apteryx__Get) (s : state)
    : state * list event * rpc_result Apteryx__GetResult :=
  match db s !! get_path m with
  | Some v => (s, [], Closure (Some {| result_value := v |}))
  | None =>
      match List.find (fun row => String.eqb (fst (fst row)) (get_path m))
              (map_to_list (providers s)) with
      | Some row =>
          let ask := {| provide_path := get_path m;
                        provide_id := snd (fst row);
                        provide_cb := fst (snd row);
                        provide_priv := snd (snd row) |} in
          if decide (snd (fst row) ∈ listening s) then
            let '(evs, res) := apteryx__provide user ask in
            (s, EvAsk ask :: evs, Closure (Some res))
          else (s, [EvAsk ask], Closure (Some {| result_value := [] |}))
      | None => (s, [], Closure (Some {| result_value := [] |}))
      end
  end.

(** Modelled from the spec: the first segment of a path remainder (the
    broker is missing from the sources). *)
Fixpoint segment (s : string) : string :=
  match s with
  | EmptyString => EmptyString
  | String c rest => if Ascii.eqb c slash then EmptyString
                     else String c (segment rest)
  end.

(** Modelled from the spec: the immediate child of a prefix on the way
    to a stored path, section 4.1 (the broker is missing from the
    sources); the empty prefix is the root. *)
Definition child_of (prefix path : string) : option string :=
  let pre := if String.eqb prefix "" then "/" else prefix in
  if String.prefix pre path then
    let seg := segment (String.substring (String.length pre)
                          (String.length path - String.length pre) path) in
    if String.eqb seg "" then None else Some (pre ++ seg)
  else None.

(** Modelled from the spec: SEARCH of section 4.2 (the broker is missing
    from the sources): the immediate children of the prefix. *)
Definition serve_search (m : Apteryx__Search) (s : state)
    : state * list event * rpc_result Apteryx__SearchResult :=
  (s, [],
   Closure (Some {| result_paths :=
     remove_dups (omap (fun row => child_of (search_path m) (fst row))
                    (map_to_list (db s))) |})).

(** Modelled from the spec: PRUNE of section 4.2 (the broker is missing
    from the sources): the node and its subtree go, without
    notifications. *)
Definition serve_prune (m : Apteryx__Prune) (s : state)
    : state * list event * rpc_result Apteryx__OKResult :=
  ({| accepting := accepting s;
      db := filter (fun row => ¬ (fst row = prune_path m ∨
                     String.prefix (prune_path m ++ "/") (fst row) = true))
              (db s);
      watchers := watchers s; providers := providers s;
      listening := listening s; can_publish := can_publish s |},
   [], Closure (Some APTERYX__OKRESULT__INIT)).

(** Modelled from the spec: registration in a registry, sections 4.3
    and 4.4 (the broker is missing from the sources): a non-null handle
    inserts or overwrites the row, a null handle deletes it. *)
Definition register (key : string * Z) (cb priv : Z)
    (r : gmap (string * Z) (Z * Z)) : gmap (string * Z) (Z * Z) :=
  if cb =? 0 then delete key r else <[key := (cb, priv)]> r.

(** Modelled from the spec: WATCH of section 4.2 (the broker is missing
    from the sources). *)
Definition serve_watch (m : Apteryx__Watch) (s : state)
    : state * list event * rpc_result Apteryx__OKResult :=
  ({| accepting := accepting s; db := db s;
      watchers := register (watch_path m, watch_id m) (watch_cb m)
                    (watch_priv m) (watchers s);
      providers := providers s; listening := listening s;
      can_publish := can_publish s |},
   [], Closure (Some APTERYX__OKRESULT__INIT)).

(** Modelled from the spec: PROVIDE of section 4.2 (the broker is
    missing from the sources). *)
Definition serve_provide (m : Apteryx__Provide) (s : state)
    : state * list event * rpc_result Apteryx__OKResult :=
  ({| accepting := accepting s; db := db s; watchers := watchers s;
      providers := register (provide_path m, provide_id m) (provide_cb m)
                     (provide_priv m) (providers s);
      listening := listening s; can_publish := can_publish s |},
   [], Closure (Some APTERYX__OKRESULT__INIT)).



(** Modelled from the spec: section 6, endpoint naming (the transport
    is missing from the sources): a listener that starts is reachable
    under the id of its process, unless it cannot publish its name, and
    one that is gone is not. *)
Definition publish (id : Z) (s : state) : option state :=
  if can_publish s then
    Some {| accepting := accepting s; db := db s; watchers := watchers s;
            providers := providers s; listening := {[id]} ∪ listening s;
            can_publish := can_publish s |}
  else None.

(** Modelled from the spec: the end of a listener, sections 5 and 6
    (the transport is missing from the sources). *)
Definition withdraw (id : Z) (s : state) : state :=
  {| accepting := accepting s; db := db s; watchers := watchers s;
     providers := providers s; listening := listening s ∖ {[id]};
     can_publish := can_publish s |}.

(** Modelled from the spec: the stubs of apteryx.c bound to this broker
    (missing from the sources); [user] is what the provide callbacks of
    the clients compute. *)
Definition stubs (user : provider) : transport state :=
  {| rpc_connect_service := accepting;
     apteryx__server__set := serve_set;
     apteryx__server__get := serve_get user;
     apteryx__server__search := serve_search;
     apteryx__server__prune := serve_prune;
     apteryx__server__watch := serve_watch;
     apteryx__server__provide := serve_provide;
     rpc_provide_service := publish;
     rpc_service_gone := withdraw |}.

End Broker.

(** ** Vocabulary of the statements *)

Section Vocabulary.
Context {B : Type}.
Implicit Types (w : world B).

Definition with_glob (g : globals) w : world B :=
  {| glob := g; broker := broker w; trace := trace w |}.

(** If the call returns from a world in [P], result and world are in [Q]. *)
Definition triple {A} (P : world B -> Prop) (m : call (B := B) A)
    (Q : A -> world B -> Prop) : Prop :=
  forall w, P w ->
    match m w with
    | Returned (a, w') => Q a w'
    | Aborted => True
    end.

(** There is a listener for the calling thread to stop: the test of
    [stop_client_thread]. *)
Definition listener_to_stop (e : env) (g : globals) : bool :=
  thread_running g && negb (client_thread g =? -1)
  && negb (client_thread g =? self e).

Definition debug_on w : Prop := debug (glob w) = true.

Definition ref_count_ok w : Prop := int_range (ref_count (glob w)).

(** [debug] and [ref_count] have these values. *)
Definition config (d : bool) (n : Z) w : Prop :=
  debug (glob w) = d /\ ref_count (glob w) = n.

(** What a call that rejects its path does: the world is left as it
    was, and the call returns [r] unless the assertion of debug mode
    aborts it. *)
Definition rejected {A} (e : env) (r : A) w : outcome (A * world B) :=
  if debug (glob w) && negb (NDEBUG e) then Aborted else Returned (r, w).

(** The call reached the broker and put the request [r] on the wire. *)
Definition sends {A} (m : call (B := B) A) w (r : request) : Prop :=
  match m w with
  | Returned (_, w') =>
      exists evs, trace w' = (trace w ++ [EvConnect true; EvRpc r] ++ evs)%list
  | Aborted => False
  end.

(** The world after a round trip that took [r] to the broker. *)
Definition after_rpc (r : request) (b : B) (evs : list event) w : world B :=
  {| glob := glob w; broker := b;
     trace := ((trace w ++ [EvConnect true]) ++ EvRpc r :: evs)%list |}.

(** The world after a connection attempt that failed. *)
Definition after_refusal w : world B :=
  {| glob := glob w; broker := broker w;
     trace := (trace w ++ [EvConnect false])%list |}.

End Vocabulary.

(** What [apteryx_get] hands back once the stub has returned. *)
Definition get_result (res : rpc_result Apteryx__GetResult) : bool * outputs :=
  let data :=
    run_closure handle_get_response res
      {| data_value := None; data_length := 0; data_done := false |} in
  if data_done data
  then (match data_value data with Some _ => true | None => false end,
        {| out_value := data_value data; out_size := data_length data |})
  else (false, {| out_value := None; out_size := 0 |}).

(** What [apteryx_search] hands back once the stub has returned. *)
Definition search_result (res : rpc_result Apteryx__SearchResult)
    : list string :=
  let data :=
    run_closure handle_search_response res
      {| data_paths := []; search_done := false |} in
  if search_done data then data_paths data else [].

(** The path that [apteryx_watch] registers. *)
Definition watch_target (path : option string) : string :=
  if is_root path then "/*" else default "" path.





(** A run of the watch callback [cb]. *)
Definition runs_callback (cb : Z) (ev : event) : bool :=
  match ev with
  | EvWatchCb c _ _ _ _ => c =? cb
  | _ => false
  end.

(** The value a finished call returned, and the events it left. *)
Definition returned_value {A B} (o : outcome (A * world B)) : option A :=
  match o with
  | Returned (a, _) => Some a
  | Aborted => None
  end.

Definition final_trace {A B} (o : outcome (A * world B)) : list event :=
  match o with
  | Returned (_, w) => trace w
  | Aborted => []
  end.

(** The four special paths of search and watch. *)
Definition special_paths : list string := [""; "/"; "*"; "/*"].

(** The bytes that a caller finds behind [*value] and [*size]. *)
Definition out_bytes (o : outputs) : bytes :=
  take (Z.to_nat (out_size o)) (default [] (out_value o)).

(** A process that has just started, and an environment for it. *)
Definition at_start {B} (b : B) : world B :=
  {| glob := initial_globals; broker := b; trace := [] |}.

Definition linux : env :=
  {| NDEBUG := false; pid := 4711; self := 1; new_thread := 2;
     pipefd := Some (3, 4); listener_exits := true; heap_after := [] |}.

(** A broker that is there and answers every request at once with
    nothing to tell: the least a call needs to go through. *)
Definition answering : transport unit :=
  {| rpc_connect_service := fun _ => true;
     apteryx__server__set :=
       fun _ b => (b, [], Closure (Some APTERYX__OKRESULT__INIT));
     apteryx__server__get :=
       fun _ b => (b, [], Closure (Some {| result_value := [] |}));
     apteryx__server__search :=
       fun _ b => (b, [], Closure (Some {| result_paths := [] |}));
     apteryx__server__prune :=
       fun _ b => (b, [], Closure (Some APTERYX__OKRESULT__INIT));
     apteryx__server__watch :=
       fun _ b => (b, [], Closure (Some APTERYX__OKRESULT__INIT));
     apteryx__server__provide :=
       fun _ b => (b, [], Closure (Some APTERYX__OKRESULT__INIT));
     rpc_provide_service := fun _ b => Some b;
     rpc_service_gone := fun _ b => b |}.

(** User code without provide callbacks. *)
Definition no_provider : provider := fun _ _ _ => None.

(** The world a call leaves, or [w] if the call aborted. *)
Definition final_world {A B} (o : outcome (A * world B)) (w : world B)
    : world B :=
  match o with
  | Returned (_, w') => w'
  | Aborted => w
  end.

(** The events a call adds to the trace. *)
Definition new_events {A B} (m : call (B := B) A) (w : world B) : list event :=
  drop (List.length (trace w)) (final_trace (m w)).

(** The four registrations of the test "watch removes multiple watches",
    all with one callback and a null private pointer, and the path that
    the test then sets. *)
Definition test_cb : Z := 4198400.


Definition public_state : string := "/entity/zones/public/state".

(** A process in which [apteryx_init] has been called twice. *)
Definition two_users : world unit :=
  {| glob := set_ref_count 2 initial_globals; broker := tt; trace := [] |}.

(** ** Vocabulary of the further properties *)

(** The value of a string of decimal digits read from the left, as
    [digits_value] reads it. *)
Fixpoint horner (acc : Z) (d : Decimal.uint) : Z :=
  match d with
  | Decimal.Nil => acc
  | Decimal.D0 d => horner (10 * acc + 0) d
  | Decimal.D1 d => horner (10 * acc + 1) d
  | Decimal.D2 d => horner (10 * acc + 2) d
  | Decimal.D3 d => horner (10 * acc + 3) d
  | Decimal.D4 d => horner (10 * acc + 4) d
  | Decimal.D5 d => horner (10 * acc + 5) d
  | Decimal.D6 d => horner (10 * acc + 6) d
  | Decimal.D7 d => horner (10 * acc + 7) d
  | Decimal.D8 d => horner (10 * acc + 8) d
  | Decimal.D9 d => horner (10 * acc + 9) d
  end.

(** The clamp that ends [strtol]. *)
Definition clamp_long (z : Z) : Z := Z.max LONG_MIN (Z.min LONG_MAX z).

(** A C string holds no NUL before its end. *)
Definition no_nul (s : string) : Prop :=
  Forall (fun b => b <> NUL) (list_byte_of_string s).

(** A broker that is there and gives every request the same prepared
    answers. *)
Definition canned (ok : rpc_result Apteryx__OKResult)
    (got : rpc_result Apteryx__GetResult)
    (found : rpc_result Apteryx__SearchResult) : transport unit :=
  {| rpc_connect_service := fun _ => true;
     apteryx__server__set := fun _ b => (b, [], ok);
     apteryx__server__get := fun _ b => (b, [], got);
     apteryx__server__search := fun _ b => (b, [], found);
     apteryx__server__prune := fun _ b => (b, [], ok);
     apteryx__server__watch := fun _ b => (b, [], ok);
     apteryx__server__provide := fun _ b => (b, [], ok);
     rpc_provide_service := fun _ b => Some b;
     rpc_service_gone := fun _ b => b |}.

(** The same broker for a process whose own service cannot start. *)
Definition deaf : transport unit :=
  {| rpc_connect_service := rpc_connect_service answering;
     apteryx__server__set := apteryx__server__set answering;
     apteryx__server__get := apteryx__server__get answering;
     apteryx__server__search := apteryx__server__search answering;
     apteryx__server__prune := apteryx__server__prune answering;
     apteryx__server__watch := apteryx__server__watch answering;
     apteryx__server__provide := apteryx__server__provide answering;
     rpc_provide_service := fun _ _ => None;
     rpc_service_gone := fun _ b => b |}.

(** The path that [apteryx_search] sends, and the paths it lets through. *)
Definition search_target (path : option string) : string :=
  if is_root path then "" else default "" path.

Definition search_accepts (path : option string) : bool :=
  is_root path ||
  negb (not_slash_first (default "" path) || not_slash_last (default "" path)
        || strstr (default "" path) "//").

(** The same call [n] times over, with the values it returned. *)
Fixpoint repeat_call {B A} (n : nat) (m : call (B := B) A) : call (list A) :=
  match n with
  | O => ret []
  | S n => a <~ m ;; rest <~ repeat_call n m ;; ret (a :: rest)
  end.

(** How many of the calls are [apteryx_init]. *)
Definition count_inits (cs : list (env * api_call)) : Z :=
  Z.of_nat (List.length
    (List.filter (fun c => match snd c with CallInit _ => true | _ => false end)
       cs)).

(** The calls that read and write data, as opposed to those that manage
    the library and its callbacks. *)
Definition is_data_call (c : api_call) : bool :=
  match c with
  | CallInit _ | CallShutdown | CallWatch _ _ _ | CallProvide _ _ _ => false
  | _ => true
  end.

Definition is_dump (c : api_call) : bool :=
  match c with
  | CallDump _ _ => true
  | _ => false
  end.

Definition globals_are {B} (g : globals) (w : world B) : Prop := glob w = g.

(** From a world in [P] the call returns, with a value in [Q] and in a
    world in [P]. *)
Definition returns_keeping {B A} (P : world B -> Prop) (m : call (B := B) A)
    (Q : A -> Prop) : Prop :=
  forall w, P w -> exists a w', m w = Returned (a, w') /\ P w' /\ Q a.

(** What [apteryx_dump] can return in a process that is initialised:
    true, when its walk has come to an end.  [None] is not a return: the
    walk is not over after the levels that were allowed. *)
Definition walked (r : option bool) : Prop := r = None \/ r = Some true.

(** Two transports that connect alike and answer GET and SEARCH alike. *)
Definition same_reads {B} (T1 T2 : transport B) : Prop :=
  (forall b, rpc_connect_service T1 b = rpc_connect_service T2 b) /\
  (forall m b, apteryx__server__get T1 m b = apteryx__server__get T2 m b) /\
  (forall m b, apteryx__server__search T1 m b = apteryx__server__search T2 m b).

(** * Properties *)

(** ** Integers and casts *)

Lemma wrap_signed_small (z : Z) : int_range z -> wrap_signed 32 z = z.
Proof.
  unfold int_range, INT_MIN, INT_MAX, wrap_signed. intros H.
  rewrite Z.mod_small; lia.
Qed.

Lemma wrap_signed_range (z : Z) : int_range (wrap_signed 32 z).
Proof.
  unfold int_range, INT_MIN, INT_MAX, wrap_signed.
  pose proof (Z.mod_pos_bound (z + 2 ^ (32 - 1)) (2 ^ 32)). lia.
Qed.

Lemma handle_of_ptr_id (p : Z) : is_pointer p -> handle_of_ptr p = p.
Proof.
  unfold is_pointer, handle_of_ptr, uint64_of_long, long_of_ptr,
    wrap_unsigned, wrap_signed.
  intros H. rewrite Zminus_mod_idemp_l.
  replace (p + 2 ^ (64 - 1) - 2 ^ (64 - 1)) with p by lia.
  apply Z.mod_small. exact H.
Qed.

Lemma ptr_of_handle_id (u : Z) : is_pointer u -> ptr_of_handle u = u.
Proof.
  unfold is_pointer, ptr_of_handle, ptr_of_long, long_of_uint64,
    wrap_unsigned, wrap_signed.
  intros H. rewrite Zminus_mod_idemp_l.
  replace (u + 2 ^ (64 - 1) - 2 ^ (64 - 1)) with u by lia.
  apply Z.mod_small. exact H.
Qed.

Lemma handle_round_trip (p : Z) :
  is_pointer p -> ptr_of_handle (handle_of_ptr p) = p.
Proof.
  intros H. rewrite (handle_of_ptr_id p H). apply ptr_of_handle_id, H.
Qed.

(** ** Reference counting *)

Section Lifecycle.
Context {B : Type} (T : transport B).
Implicit Types (w : world B) (e : env).

Lemma apteryx_init_eq (d : bool) w :
  apteryx_init d w =
  Returned (true,
    with_glob (set_debug (debug (glob w) || d)
                 (set_ref_count (wrap_signed 32 (ref_count (glob w) + 1))
                    (glob w))) w).
Proof. reflexivity. Qed.

Lemma stop_client_thread_idle e w :
  listener_to_stop e (glob w) = false ->
  stop_client_thread T e w = Returned (tt, w).
Proof.
  unfold listener_to_stop. intros H.
  cbv [stop_client_thread bind get_glob ret]. rewrite H. reflexivity.
Qed.

Lemma stop_client_thread_running e w :
  listener_to_stop e (glob w) = true ->
  stop_client_thread T e w
  = Returned (tt,
      {| glob := if listener_exits e
                 then listen_thread_handler_cleanup
                        (set_thread_running false (glob w))
                 else set_thread_running false (glob w);
         broker := rpc_service_gone T (service_id e) (broker w);
         trace := (trace w
                   ++ [EvStopSignal (stopfd (glob w));
                       if listener_exits e
                       then EvThreadExit (client_thread (glob w))
                       else EvThreadCancel (client_thread (glob w))])%list |}).
Proof.
  unfold listener_to_stop. intros H.
  cbv [stop_client_thread bind get_glob put_glob emit service_gone ret].
  rewrite H. simpl. destruct (listener_exits e); simpl;
    rewrite <- app_assoc; reflexivity.
Qed.

Lemma stop_client_thread_returns e w :
  exists w1, stop_client_thread T e w = Returned (tt, w1) /\
             debug (glob w1) = debug (glob w) /\
             ref_count (glob w1) = ref_count (glob w).
Proof.
  destruct (listener_to_stop e (glob w)) eqn:H.
  - rewrite (stop_client_thread_running e w H). eexists.
    split; [reflexivity |]. destruct (listener_exits e); split; reflexivity.
  - rewrite (stop_client_thread_idle e w H). eexists.
    split; [reflexivity |]. split; reflexivity.
Qed.

Lemma apteryx_shutdown_not_positive e w :
  ref_count (glob w) <= 0 -> apteryx_shutdown T e w = Returned (false, w).
Proof.
  intros H. unfold apteryx_shutdown, bind, get_glob, ret. simpl.
  destruct (Z.leb_spec (ref_count (glob w)) 0); [reflexivity | lia].
Qed.

Lemma apteryx_shutdown_more_users e w :
  int_range (ref_count (glob w)) -> 1 < ref_count (glob w) ->
  apteryx_shutdown T e w =
  Returned (true, with_glob (set_ref_count (ref_count (glob w) - 1) (glob w)) w).
Proof.
  intros Hr H. unfold apteryx_shutdown, bind, get_glob, put_glob, ret. simpl.
  destruct (Z.leb_spec (ref_count (glob w)) 0); [lia |].
  rewrite wrap_signed_small by (unfold int_range, INT_MIN, INT_MAX in *; lia).
  destruct (Z.ltb_spec 0 (ref_count (glob w) - 1)); [reflexivity | lia].
Qed.

Lemma apteryx_shutdown_last_user e w :
  ref_count (glob w) = 1 ->
  exists w1,
    stop_client_thread T e (with_glob (set_ref_count 0 (glob w)) w)
      = Returned (tt, w1) /\
    apteryx_shutdown T e w
      = Returned (true, with_glob (set_thread_running false (glob w1)) w1).
Proof.
  intros H.
  destruct (stop_client_thread_returns e
              (with_glob (set_ref_count 0 (glob w)) w)) as (w1 & Hs & _).
  exists w1. split; [exact Hs |].
  unfold apteryx_shutdown, bind at 1, get_glob. simpl. rewrite H. simpl.
  unfold bind at 1, put_glob. simpl.
  change (wrap_signed 32 (1 - 1)) with 0.
  unfold bind at 1. simpl.
  unfold bind at 1. unfold with_glob in Hs. simpl in Hs. rewrite Hs.
  reflexivity.
Qed.

(** The last user, with a listener to stop: the stop byte is written
    and the listener leaves or is cancelled. *)
Lemma apteryx_shutdown_stops_listener e w :
  ref_count (glob w) = 1 -> listener_to_stop e (glob w) = true ->
  apteryx_shutdown T e w
  = Returned (true,
      {| glob :=
           {| debug := debug (glob w); ref_count := 0;
              stopfd := if listener_exits e then -1 else stopfd (glob w);
              client_thread := if listener_exits e then -1
                               else client_thread (glob w);
              thread_running := false |};
         broker := rpc_service_gone T (service_id e) (broker w);
         trace := (trace w
                   ++ [EvStopSignal (stopfd (glob w));
                       if listener_exits e
                       then EvThreadExit (client_thread (glob w))
                       else EvThreadCancel (client_thread (glob w))])%list |}).
Proof.
  intros H1 Hl.
  destruct (apteryx_shutdown_last_user e w H1) as (w1 & Hs & ->).
  rewrite stop_client_thread_running in Hs by exact Hl.
  inversion Hs; subst w1. unfold with_glob. simpl.
  destruct (listener_exits e); reflexivity.
Qed.

(** The last user, with no listener to stop. *)
Lemma apteryx_shutdown_nothing_to_stop e w :
  ref_count (glob w) = 1 -> listener_to_stop e (glob w) = false ->
  apteryx_shutdown T e w
  = Returned (true,
      with_glob (set_thread_running false (set_ref_count 0 (glob w))) w).
Proof.
  intros H1 Hl.
  destruct (apteryx_shutdown_last_user e w H1) as (w1 & Hs & ->).
  rewrite stop_client_thread_idle in Hs by exact Hl.
  inversion Hs; subst w1. reflexivity.
Qed.

End Lifecycle.

(** ** Triples for calls that may abort *)

Section Triples.
Context {B : Type}.
Implicit Types (w : world B) (P : world B -> Prop).

Lemma triple_ret {A} P (a : A) : triple P (ret a) (fun _ => P).
Proof. intros w H. exact H. Qed.

Lemma triple_bind {A C} P (m : call A) (k : A -> call C) Q R :
  triple P m Q -> (forall a, triple (Q a) (k a) R) -> triple P (bind m k) R.
Proof.
  intros Hm Hk w H. unfold bind. specialize (Hm w H).
  destruct (m w) as [[a w'] |]; [| exact I]. apply (Hk a w' Hm).
Qed.

Lemma triple_weaken {A} P (m : call A) (Q Q' : A -> world B -> Prop) :
  triple P m Q -> (forall a w, Q a w -> Q' a w) -> triple P m Q'.
Proof.
  intros Hm HQ w H. specialize (Hm w H).
  destruct (m w) as [[a w'] |]; [apply HQ, Hm | exact I].
Qed.

Lemma triple_forget {A} P (m : call A) Q :
  triple P m (fun _ => Q) -> triple P (forget m) (fun _ => Q).
Proof.
  intros Hm. unfold forget. eapply triple_bind; [exact Hm |].
  intros a. apply triple_ret.
Qed.

End Triples.

(** ** What the calls leave alone *)

Section Frame.
Context {B : Type} (T : transport B).
Implicit Types (w : world B) (e : env).

(** Unfold a call down to the stubs and split on every test. *)
Ltac run_through :=
  intros w Hw; unfold config, debug_on, ref_count_ok in *;
  cbv [bind ret get_glob put_glob emit invoke connect debug_flag c_assert
       run_closure handle_ok_response start_client_thread
       stop_client_thread listen_thread_handler_begin provide_service
       service_gone listen_thread_handler_cleanup set_thread_running
       set_stopfd set_client_thread set_ref_count set_debug];
  simpl; try assumption;
  repeat (case_match; simpl in *; simplify_eq; simpl in *;
          try exact I; try assumption; try apply wrap_signed_range).

(** Only [apteryx_init] and [apteryx_shutdown] write [debug] or
    [ref_count]. *)
Lemma config_kept_prune e p d n :
  triple (config d n) (apteryx_prune T e p) (fun _ => config d n).
Proof. unfold apteryx_prune. run_through. Qed.

Lemma config_kept_set e p v d n :
  triple (config d n) (apteryx_set T e p v) (fun _ => config d n).
Proof. unfold apteryx_set. run_through. Qed.

Lemma config_kept_get e p out d n :
  triple (config d n) (apteryx_get T e p out) (fun _ => config d n).
Proof. unfold apteryx_get. run_through. Qed.

Lemma config_kept_search e p d n :
  triple (config d n) (apteryx_search T e p) (fun _ => config d n).
Proof. unfold apteryx_search. run_through. Qed.

Lemma config_kept_watch e p cb priv d n :
  triple (config d n) (apteryx_watch T e p cb priv) (fun _ => config d n).
Proof. unfold apteryx_watch. run_through. Qed.

Lemma config_kept_provide e p cb priv d n :
  triple (config d n) (apteryx_provide T e p cb priv) (fun _ => config d n).
Proof. unfold apteryx_provide. run_through. Qed.

Lemma config_kept_set_int e p k v d n :
  triple (config d n) (apteryx_set_int T e p k v) (fun _ => config d n).
Proof.
  unfold apteryx_set_int. destruct (negb _).
  - apply config_kept_set.
  - apply triple_ret.
Qed.

Lemma config_kept_set_string e p k v d n :
  triple (config d n) (apteryx_set_string T e p k v) (fun _ => config d n).
Proof.
  unfold apteryx_set_string. destruct (negb _).
  - apply config_kept_set.
  - apply triple_ret.
Qed.

Lemma config_kept_get_int e p k d n :
  triple (config d n) (apteryx_get_int T e p k) (fun _ => config d n).
Proof.
  unfold apteryx_get_int. destruct (negb _); [| apply triple_ret].
  eapply triple_bind; [apply config_kept_get |].
  intros [[] [[v |] m]]; apply triple_ret.
Qed.

Lemma config_kept_get_string e p k d n :
  triple (config d n) (apteryx_get_string T e p k) (fun _ => config d n).
Proof.
  unfold apteryx_get_string. destruct (negb _); [| apply triple_ret].
  eapply triple_bind; [apply config_kept_get |].
  intros r. apply triple_ret.
Qed.

Lemma config_kept_dump e fuel d n :
  forall p, triple (config d n) (apteryx_dump T e fuel p) (fun _ => config d n).
Proof.
  induction fuel as [| fuel IH]; intros p; simpl.
  - apply triple_ret.
  - eapply triple_bind with (Q := fun _ => config d n); [run_through |].
    intros g. destruct (ref_count g <=? 0).
    + eapply triple_bind with (Q := fun _ => config d n); [run_through |].
      intros _. apply triple_ret.
    + eapply triple_bind; [apply config_kept_get |].
      intros r.
      eapply triple_bind with (Q := fun _ => config d n).
      { destruct r as [[] [[v |] m]]; try apply triple_ret. run_through. }
      intros _.
      eapply triple_bind; [apply config_kept_search |].
      intros children. induction children as [| child rest IHc].
      * apply triple_ret.
      * destruct (negb _); [| exact IHc].
        eapply triple_bind; [apply IH |].
        intros [r' |]; [exact IHc | apply triple_ret].
Qed.

(** A property of [debug] and [ref_count] that the two lifecycle calls
    keep is kept by every call. *)
Lemma kept_by_every_call (J : bool -> Z -> Prop) e c :
  let holds w := J (debug (glob w)) (ref_count (glob w)) in
  (forall d, triple holds (apteryx_init (B := B) d) (fun _ => holds)) ->
  triple holds (apteryx_shutdown T e) (fun _ => holds) ->
  triple holds (run_call T e c) (fun _ => holds).
Proof.
  intros holds Hinit Hshutdown.
  assert (Hframe : forall A (m : call A),
            (forall d n, triple (config d n) m (fun _ => config d n)) ->
            triple holds m (fun _ => holds)).
  { intros A m Hm w Hw.
    specialize (Hm (debug (glob w)) (ref_count (glob w)) w (conj eq_refl eq_refl)).
    destruct (m w) as [[a w'] |]; [| exact I].
    destruct Hm as [Hd Hn]. unfold holds. rewrite Hd, Hn. exact Hw. }
  destruct c; simpl; apply triple_forget.
  - apply Hinit.
  - exact Hshutdown.
  - apply Hframe. intros. apply config_kept_prune.
  - apply Hframe. intros. apply config_kept_dump.
  - apply Hframe. intros. apply config_kept_set.
  - apply Hframe. intros. apply config_kept_set_int.
  - apply Hframe. intros. apply config_kept_set_string.
  - apply Hframe. intros. apply config_kept_get.
  - apply Hframe. intros. apply config_kept_get_int.
  - apply Hframe. intros. apply config_kept_get_string.
  - apply Hframe. intros. apply config_kept_search.
  - apply Hframe. intros. apply config_kept_watch.
  - apply Hframe. intros. apply config_kept_provide.
Qed.

Lemma debug_kept_init d :
  triple debug_on (apteryx_init (B := B) d) (fun _ => debug_on).
Proof.
  intros w Hw. rewrite apteryx_init_eq. unfold debug_on in *. simpl.
  rewrite Hw. reflexivity.
Qed.

Lemma debug_kept_shutdown e :
  triple debug_on (apteryx_shutdown T e) (fun _ => debug_on).
Proof. unfold apteryx_shutdown. run_through. Qed.

Lemma debug_kept_call e c :
  triple debug_on (run_call T e c) (fun _ => debug_on).
Proof.
  apply (kept_by_every_call (fun d _ => d = true) e c).
  - apply debug_kept_init.
  - apply debug_kept_shutdown.
Qed.

Lemma debug_kept_calls cs :
  triple debug_on (run_calls T cs) (fun _ => debug_on).
Proof.
  induction cs as [| [e c] rest IH]; simpl.
  - apply triple_ret.
  - eapply triple_bind; [apply debug_kept_call |]. intros u. exact IH.
Qed.

(** The reference count never leaves the range of [int]. *)
Lemma range_kept_init d :
  triple ref_count_ok (apteryx_init (B := B) d) (fun _ => ref_count_ok).
Proof.
  intros w Hw. rewrite apteryx_init_eq. unfold ref_count_ok. simpl.
  apply wrap_signed_range.
Qed.

Lemma range_kept_shutdown e :
  triple ref_count_ok (apteryx_shutdown T e) (fun _ => ref_count_ok).
Proof. unfold apteryx_shutdown. run_through. Qed.

Lemma range_kept_calls cs :
  triple ref_count_ok (run_calls T cs) (fun _ => ref_count_ok).
Proof.
  induction cs as [| [e c] rest IH]; simpl.
  - apply triple_ret.
  - eapply triple_bind; [| intros u; exact IH].
    apply (kept_by_every_call (fun _ n => int_range n) e c).
    + apply range_kept_init.
    + apply range_kept_shutdown.
Qed.

Lemma ref_count_in_range_from_start cs (b : B) w' :
  run_calls T cs (at_start b) = Returned (tt, w') ->
  int_range (ref_count (glob w')).
Proof.
  intros Hrun.
  assert (H0 : ref_count_ok (at_start b)).
  { unfold ref_count_ok, int_range, INT_MIN, INT_MAX. simpl. lia. }
  pose proof (range_kept_calls cs (at_start b) H0) as H.
  rewrite Hrun in H. exact H.
Qed.

End Frame.

(** ** Path validation at the API boundary *)

Section Validation.
Context {B : Type} (T : transport B).
Implicit Types (w : world B) (e : env) (p : string).

Ltac reject_by H :=
  intros H; cbv [bind ret get_glob debug_flag c_assert rejected];
  rewrite ?H; simpl;
  match goal with |- context [debug (glob ?w)] => destruct (debug (glob w)) end;
  match goal with |- context [NDEBUG ?e] => destruct (NDEBUG e) end;
  reflexivity.

Lemma apteryx_set_rejects e p v w :
  not_slash_first p = true -> apteryx_set T e p v w = rejected e false w.
Proof. unfold apteryx_set. reject_by H. Qed.

Lemma apteryx_get_rejects e p out w :
  not_slash_first p = true ->
  apteryx_get T e p out w = rejected e (false, out) w.
Proof. unfold apteryx_get. reject_by H. Qed.

Lemma apteryx_prune_rejects e p w :
  not_slash_first p = true -> apteryx_prune T e p w = rejected e false w.
Proof. unfold apteryx_prune. reject_by H. Qed.

Lemma apteryx_provide_rejects e p cb priv w :
  not_slash_first p = true ->
  apteryx_provide T e p cb priv w = rejected e false w.
Proof. unfold apteryx_provide. reject_by H. Qed.

Lemma apteryx_watch_rejects e p cb priv w :
  is_root (Some p) = false -> not_slash_first p = true ->
  apteryx_watch T e (Some p) cb priv w = rejected e false w.
Proof. unfold apteryx_watch. intros Hr. rewrite Hr. simpl. reject_by H. Qed.

Lemma apteryx_search_rejects e p w :
  is_root (Some p) = false ->
  not_slash_first p || not_slash_last p || strstr p "//" = true ->
  apteryx_search T e (Some p) w = rejected e [] w.
Proof.
  unfold apteryx_search. intros Hr. rewrite Hr. simpl. intros H. rewrite H.
  cbv [bind ret get_glob debug_flag c_assert rejected].
  destruct (debug (glob w)), (NDEBUG e); simpl; try reflexivity.
  destruct (not_slash_first p); [reflexivity |].
  destruct (not_slash_last p); [reflexivity |].
  simpl in H. rewrite H. reflexivity.
Qed.

Lemma rejected_quietly {A} e (r : A) w :
  debug (glob w) = false -> rejected e r w = Returned (r, w).
Proof. intros H. unfold rejected. rewrite H. reflexivity. Qed.

Lemma rejected_aborts {A} e (r : A) w :
  debug (glob w) = true -> NDEBUG e = false -> rejected e r w = Aborted.
Proof. intros H H'. unfold rejected. rewrite H, H'. reflexivity. Qed.

(** *** Paths that pass the check: one round trip *)

Ltac round_trip :=
  cbv [bind ret connect invoke after_rpc after_refusal]; simpl;
  repeat match goal with
         | H : _ = _ |- _ => rewrite H; simpl
         end;
  try reflexivity.

Lemma apteryx_set_refused e p v w :
  not_slash_first p = false -> rpc_connect_service T (broker w) = false ->
  apteryx_set T e p v w = Returned (false, after_refusal w).
Proof. intros H Hc. unfold apteryx_set. round_trip. Qed.

Lemma apteryx_set_reply e p v w b evs res :
  not_slash_first p = false -> rpc_connect_service T (broker w) = true ->
  apteryx__server__set T {| set_path := p; set_value := v |} (broker w)
    = (b, evs, res) ->
  apteryx_set T e p v w =
  Returned (run_closure handle_ok_response res false,
            after_rpc (ReqSet {| set_path := p; set_value := v |}) b evs w).
Proof.
  intros H Hc Hs. unfold apteryx_set. round_trip. destruct res; reflexivity.
Qed.

Lemma apteryx_prune_reply e p w b evs res :
  not_slash_first p = false -> rpc_connect_service T (broker w) = true ->
  apteryx__server__prune T {| prune_path := p |} (broker w) = (b, evs, res) ->
  apteryx_prune T e p w =
  Returned (run_closure handle_ok_response res false,
            after_rpc (ReqPrune {| prune_path := p |}) b evs w).
Proof.
  intros H Hc Hs. unfold apteryx_prune. round_trip. destruct res; reflexivity.
Qed.

Lemma apteryx_get_refused e p out w :
  not_slash_first p = false -> rpc_connect_service T (broker w) = false ->
  apteryx_get T e p out w =
  Returned ((false, {| out_value := None; out_size := 0 |}), after_refusal w).
Proof. intros H Hc. unfold apteryx_get. round_trip. Qed.

Lemma apteryx_get_reply e p out w b evs res :
  not_slash_first p = false -> rpc_connect_service T (broker w) = true ->
  apteryx__server__get T {| get_path := p |} (broker w) = (b, evs, res) ->
  apteryx_get T e p out w =
  Returned (get_result res, after_rpc (ReqGet {| get_path := p |}) b evs w).
Proof.
  intros H Hc Hs. unfold apteryx_get, get_result. round_trip.
  destruct (data_done _); reflexivity.
Qed.

Lemma apteryx_search_root e path w :
  is_root path = true ->
  apteryx_search T e path w = apteryx_search T e (Some "") w.
Proof. intros H. unfold apteryx_search. rewrite H. reflexivity. Qed.

Lemma apteryx_search_reply e path w b evs res :
  is_root path = true -> rpc_connect_service T (broker w) = true ->
  apteryx__server__search T {| search_path := "" |} (broker w)
    = (b, evs, res) ->
  apteryx_search T e path w =
  Returned (search_result res,
            after_rpc (ReqSearch {| search_path := "" |}) b evs w).
Proof.
  intros H Hc Hs. unfold apteryx_search, search_result. round_trip.
  destruct (search_done _); reflexivity.
Qed.

Lemma apteryx_watch_root e path cb priv w :
  is_root path = true ->
  apteryx_watch T e path cb priv w = apteryx_watch T e (Some "/*") cb priv w.
Proof. intros H. unfold apteryx_watch. rewrite H. reflexivity. Qed.

(** The message that [apteryx_watch] sends. *)
Lemma apteryx_watch_reply e path cb priv w b evs res :
  let m := {| watch_path := watch_target path; watch_value := [];
              watch_id := wrap_unsigned 64 (pid e);
              watch_cb := handle_of_ptr cb;
              watch_priv := handle_of_ptr priv |} in
  not_slash_first (watch_target path) = false ->
  rpc_connect_service T (broker w) = true ->
  apteryx__server__watch T m (broker w) = (b, evs, res) ->
  apteryx_watch T e path cb priv w =
  match res with
  | NoResponse => Returned (false, after_rpc (ReqWatch m) b evs w)
  | Closure _ =>
      ((if negb (cb =? 0) then start_client_thread T e else ret tt) ;;;
       ret true) (after_rpc (ReqWatch m) b evs w)
  end.
Proof.
  intros m H Hc Hs. unfold apteryx_watch. unfold watch_target in *.
  subst m. round_trip. destruct res; reflexivity.
Qed.

Lemma apteryx_provide_reply e p cb priv w b evs res :
  let m := {| provide_path := p; provide_id := wrap_unsigned 64 (pid e);
              provide_cb := handle_of_ptr cb;
              provide_priv := handle_of_ptr priv |} in
  not_slash_first p = false -> rpc_connect_service T (broker w) = true ->
  apteryx__server__provide T m (broker w) = (b, evs, res) ->
  apteryx_provide T e p cb priv w =
  match res with
  | NoResponse => Returned (false, after_rpc (ReqProvide m) b evs w)
  | Closure _ =>
      ((if negb (cb =? 0) then start_client_thread T e else ret tt) ;;;
       ret true) (after_rpc (ReqProvide m) b evs w)
  end.
Proof.
  intros m H Hc Hs. unfold apteryx_provide. subst m. round_trip.
  destruct res; reflexivity.
Qed.

Lemma start_client_thread_returns e w :
  exists w', start_client_thread T e w = Returned (tt, w') /\
             exists evs, trace w' = (trace w ++ evs)%list.
Proof.
  cbv [start_client_thread bind get_glob put_glob emit ret
       listen_thread_handler_begin provide_service].
  simpl.
  destruct (thread_running (glob w)); simpl.
  - eexists. split; [reflexivity |]. exists []. symmetry. apply app_nil_r.
  - destruct (pipefd e) as [[rfd wfd] |]; simpl;
      [destruct (rpc_provide_service T (service_id e) (broker w)); simpl |];
      eexists; (split; [reflexivity |]); simpl; eexists; reflexivity.
Qed.

Lemma start_client_thread_running e w :
  thread_running (glob w) = true ->
  start_client_thread T e w = Returned (tt, w).
Proof.
  intros H. cbv [start_client_thread bind get_glob ret]. rewrite H.
  reflexivity.
Qed.

(** The start of the listener, in its three outcomes: [pipe] fails, the
    service starts, the service cannot start. *)
Lemma start_client_thread_fresh e w :
  thread_running (glob w) = false ->
  start_client_thread T e w
  = Returned (tt,
      match pipefd e with
      | None =>
          {| glob := set_client_thread (new_thread e) (glob w);
             broker := broker w;
             trace := (trace w ++ [EvThreadCreate (new_thread e)])%list |}
      | Some (_, wfd) =>
          match rpc_provide_service T (service_id e) (broker w) with
          | Some b =>
              {| glob := set_thread_running true
                           (set_stopfd wfd
                              (set_client_thread (new_thread e) (glob w)));
                 broker := b;
                 trace := (trace w ++ [EvThreadCreate (new_thread e)])%list |}
          | None =>
              {| glob := set_client_thread (-1)
                           (set_thread_running false
                              (set_stopfd (-1) (glob w)));
                 broker := broker w;
                 trace := (trace w ++ [EvThreadCreate (new_thread e)])%list |}
          end
      end).
Proof.
  intros H.
  cbv [start_client_thread bind get_glob put_glob emit ret
       listen_thread_handler_begin provide_service].
  rewrite H. simpl.
  destruct (pipefd e) as [[rfd wfd] |]; simpl; [| reflexivity].
  destruct (rpc_provide_service T (service_id e) (broker w)); reflexivity.
Qed.

Lemma after_rpc_trace r (b : B) evs w :
  trace (after_rpc r b evs w)
  = (trace w ++ [EvConnect true; EvRpc r] ++ evs)%list.
Proof. unfold after_rpc. simpl. rewrite <- app_assoc. reflexivity. Qed.

Lemma sends_set e p v w :
  not_slash_first p = false -> rpc_connect_service T (broker w) = true ->
  sends (apteryx_set T e p v) w (ReqSet {| set_path := p; set_value := v |}).
Proof.
  intros H Hc. unfold sends.
  destruct (apteryx__server__set T {| set_path := p; set_value := v |}
              (broker w)) as [[b evs] res] eqn:Hs.
  rewrite (apteryx_set_reply e p v w b evs res H Hc Hs).
  exists evs. apply after_rpc_trace.
Qed.

Lemma sends_get e p out w :
  not_slash_first p = false -> rpc_connect_service T (broker w) = true ->
  sends (apteryx_get T e p out) w (ReqGet {| get_path := p |}).
Proof.
  intros H Hc. unfold sends.
  destruct (apteryx__server__get T {| get_path := p |} (broker w))
    as [[b evs] res] eqn:Hs.
  rewrite (apteryx_get_reply e p out w b evs res H Hc Hs).
  exists evs. apply after_rpc_trace.
Qed.

Lemma sends_prune e p w :
  not_slash_first p = false -> rpc_connect_service T (broker w) = true ->
  sends (apteryx_prune T e p) w (ReqPrune {| prune_path := p |}).
Proof.
  intros H Hc. unfold sends.
  destruct (apteryx__server__prune T {| prune_path := p |} (broker w))
    as [[b evs] res] eqn:Hs.
  rewrite (apteryx_prune_reply e p w b evs res H Hc Hs).
  exists evs. apply after_rpc_trace.
Qed.

Lemma sends_search e path w :
  is_root path = true -> rpc_connect_service T (broker w) = true ->
  sends (apteryx_search T e path) w (ReqSearch {| search_path := "" |}).
Proof.
  intros H Hc. unfold sends.
  destruct (apteryx__server__search T {| search_path := "" |} (broker w))
    as [[b evs] res] eqn:Hs.
  rewrite (apteryx_search_reply e path w b evs res H Hc Hs).
  exists evs. apply after_rpc_trace.
Qed.

Lemma then_true_trace e (c : bool) w0 :
  match ((if c then start_client_thread T e else ret tt) ;;; ret true) w0 with
  | Returned (_, w') => exists evs, trace w' = (trace w0 ++ evs)%list
  | Aborted => False
  end.
Proof.
  unfold bind. destruct c.
  - destruct (start_client_thread_returns e w0) as (w' & -> & Ht).
    exact Ht.
  - simpl. exists []. symmetry. apply app_nil_r.
Qed.

Lemma sends_watch e path cb priv w :
  not_slash_first (watch_target path) = false ->
  rpc_connect_service T (broker w) = true ->
  sends (apteryx_watch T e path cb priv) w
    (ReqWatch {| watch_path := watch_target path; watch_value := [];
                 watch_id := wrap_unsigned 64 (pid e);
                 watch_cb := handle_of_ptr cb;
                 watch_priv := handle_of_ptr priv |}).
Proof.
  intros H Hc. unfold sends.
  set (m := {| watch_path := watch_target path; watch_value := [];
               watch_id := wrap_unsigned 64 (pid e);
               watch_cb := handle_of_ptr cb;
               watch_priv := handle_of_ptr priv |}).
  destruct (apteryx__server__watch T m (broker w)) as [[b evs] res] eqn:Hs.
  rewrite (apteryx_watch_reply e path cb priv w b evs res H Hc Hs).
  fold m. destruct res as [| r].
  - exists evs. apply after_rpc_trace.
  - pose proof (then_true_trace e (negb (cb =? 0))
                  (after_rpc (ReqWatch m) b evs w)) as Ht.
    match type of Ht with
    | match ?x with _ => _ end => destruct x as [[r' w'] |]
    end; [| exact Ht].
    destruct Ht as [evs' Ht]. exists (evs ++ evs')%list.
    rewrite Ht, after_rpc_trace. simpl. rewrite <- app_assoc. reflexivity.
Qed.

Lemma sends_provide e p cb priv w :
  not_slash_first p = false -> rpc_connect_service T (broker w) = true ->
  sends (apteryx_provide T e p cb priv) w
    (ReqProvide {| provide_path := p; provide_id := wrap_unsigned 64 (pid e);
                   provide_cb := handle_of_ptr cb;
                   provide_priv := handle_of_ptr priv |}).
Proof.
  intros H Hc. unfold sends.
  set (m := {| provide_path := p; provide_id := wrap_unsigned 64 (pid e);
               provide_cb := handle_of_ptr cb;
               provide_priv := handle_of_ptr priv |}).
  destruct (apteryx__server__provide T m (broker w)) as [[b evs] res] eqn:Hs.
  rewrite (apteryx_provide_reply e p cb priv w b evs res H Hc Hs).
  fold m. destruct res as [| r].
  - exists evs. apply after_rpc_trace.
  - pose proof (then_true_trace e (negb (cb =? 0))
                  (after_rpc (ReqProvide m) b evs w)) as Ht.
    match type of Ht with
    | match ?x with _ => _ end => destruct x as [[r' w'] |]
    end; [| exact Ht].
    destruct Ht as [evs' Ht]. exists (evs ++ evs')%list.
    rewrite Ht, after_rpc_trace. simpl. rewrite <- app_assoc. reflexivity.
Qed.

End Validation.

(** ** Lifecycle of the library *)

(** C6.  [apteryx_shutdown] returns false, changing nothing, when the
    reference count is not positive.  Otherwise it returns true and the
    count is one less.  With more than one user left the count is all
    that changes: nothing is stopped.  The last user, the step from 1 to
    0, stops the listener when there is one for the caller to stop: the
    stop byte is written to [stopfd], the endpoint of the process is
    gone, and the listener has left, with the three variables back at
    -1, false and -1, or has been cancelled when it does not leave.
    When there is none to stop, the last user only clears
    [thread_running]. *)
Theorem shutdown_reference_count {B} (T : transport B) (e : env)
    (w : world B) :
  int_range (ref_count (glob w)) ->
  (ref_count (glob w) <= 0 -> apteryx_shutdown T e w = Returned (false, w)) /\
  (0 < ref_count (glob w) ->
     exists w', apteryx_shutdown T e w = Returned (true, w') /\
                ref_count (glob w') = ref_count (glob w) - 1) /\
  (1 < ref_count (glob w) ->
     apteryx_shutdown T e w =
     Returned (true,
       with_glob (set_ref_count (ref_count (glob w) - 1) (glob w)) w)) /\
  (ref_count (glob w) = 1 -> listener_to_stop e (glob w) = true ->
     apteryx_shutdown T e w
     = Returned (true,
         {| glob :=
              {| debug := debug (glob w); ref_count := 0;
                 stopfd := if listener_exits e then -1 else stopfd (glob w);
                 client_thread := if listener_exits e then -1
                                  else client_thread (glob w);
                 thread_running := false |};
            broker := rpc_service_gone T (service_id e) (broker w);
            trace := (trace w
                      ++ [EvStopSignal (stopfd (glob w));
                          if listener_exits e
                          then EvThreadExit (client_thread (glob w))
                          else EvThreadCancel (client_thread (glob w))])%list
         |})) /\
  (ref_count (glob w) = 1 -> listener_to_stop e (glob w) = false ->
     apteryx_shutdown T e w
     = Returned (true,
         with_glob (set_thread_running false (set_ref_count 0 (glob w))) w)) /\
  (forall r w', apteryx_shutdown T e w = Returned (r, w') ->
     trace w' <> trace w \/ thread_running (glob w') <> thread_running (glob w)
       \/ stopfd (glob w') <> stopfd (glob w)
       \/ client_thread (glob w') <> client_thread (glob w)
       \/ broker w' <> broker w ->
     ref_count (glob w) = 1).
Proof.
  intros Hr. split; [apply apteryx_shutdown_not_positive |].
  split.
  { intros Hpos. destruct (Z.eq_dec (ref_count (glob w)) 1) as [H1 | H1].
    - destruct (apteryx_shutdown_last_user T e w H1) as (w1 & Hs & ->).
      eexists. split; [reflexivity |]. simpl.
      destruct (stop_client_thread_returns T e
                  (with_glob (set_ref_count 0 (glob w)) w))
        as (w1' & Hs' & _ & Hc).
      rewrite Hs in Hs'. inversion Hs'; subst w1'. rewrite Hc. simpl. lia.
    - rewrite apteryx_shutdown_more_users by (assumption || lia).
      eexists. split; [reflexivity |]. reflexivity. }
  split; [apply apteryx_shutdown_more_users, Hr |].
  split; [apply apteryx_shutdown_stops_listener |].
  split; [apply apteryx_shutdown_nothing_to_stop |].
  intros r w' Hs Hch.
  destruct (Z.le_gt_cases (ref_count (glob w)) 0) as [Hle | Hgt].
  - rewrite (apteryx_shutdown_not_positive T e w Hle) in Hs.
    inversion Hs; subst. tauto.
  - destruct (Z.eq_dec (ref_count (glob w)) 1) as [H1 | H1]; [exact H1 |].
    rewrite apteryx_shutdown_more_users in Hs by (assumption || lia).
    inversion Hs; subst. simpl in Hch. tauto.
Qed.

Lemma shutdown_reference_count_witness :
  let w := {| glob := {| debug := false; ref_count := 1; stopfd := 4;
                         client_thread := 2; thread_running := true |};
              broker := tt; trace := [] |} in
  int_range (ref_count (glob w)) /\
  ref_count (glob w) = 1 /\ listener_to_stop linux (glob w) = true /\
  apteryx_shutdown answering linux w
  = Returned (true,
      {| glob := {| debug := false; ref_count := 0; stopfd := -1;
                    client_thread := -1; thread_running := false |};
         broker := tt; trace := [EvStopSignal 4; EvThreadExit 2] |}).
Proof.
  intros w.
  assert (Hr : int_range (ref_count (glob w))).
  { unfold int_range, INT_MIN, INT_MAX. simpl. lia. }
  assert (H1 : ref_count (glob w) = 1) by reflexivity.
  assert (Hl : listener_to_stop linux (glob w) = true) by reflexivity.
  repeat (split; [assumption |]).
  destruct (shutdown_reference_count answering linux w Hr)
    as (_ & _ & _ & Hstop & _).
  apply (Hstop H1 Hl).
Defined.

(** The last user of a process that watches a path: the listener is
    told to stop and leaves, and a further shutdown is refused. *)
Lemma last_shutdown_stops_the_listener :
  let run :=
    (apteryx_init false ;;;
     apteryx_watch answering linux (Some "/entity/*") test_cb 0 ;;;
     r1 <~ apteryx_shutdown answering linux ;;
     r2 <~ apteryx_shutdown answering linux ;;
     ret (r1, r2)) (at_start tt) in
  returned_value run = Some (true, false) /\
  thread_running (glob (final_world run (at_start tt))) = false /\
  List.filter
    (fun ev => match ev with
               | EvThreadCreate _ | EvStopSignal _ | EvThreadExit _ => true
               | _ => false
               end) (final_trace run)
  = [EvThreadCreate 2; EvStopSignal 4; EvThreadExit 2].
Proof. repeat split; reflexivity. Qed.

(** C9.  [apteryx_init] returns true whatever its argument and whatever
    the state, and ors the argument into [debug].  No call of the
    library clears the flag: after any sequence of calls that starts
    from a state with the flag set, or that begins with
    [apteryx_init (true)], the flag is set. *)
Theorem debug_flag_monotone {B} (T : transport B) :
  (forall d (w : world B),
     exists w', apteryx_init d w = Returned (true, w') /\
                debug (glob w') = debug (glob w) || d) /\
  (forall cs (w w' : world B),
     run_calls T cs w = Returned (tt, w') ->
     debug (glob w) = true -> debug (glob w') = true) /\
  (forall e cs (w w' : world B),
     run_calls T ((e, CallInit true) :: cs) w = Returned (tt, w') ->
     debug (glob w') = true).
Proof.
  assert (Hcalls : forall cs (w w' : world B),
            run_calls T cs w = Returned (tt, w') ->
            debug (glob w) = true -> debug (glob w') = true).
  { intros cs w w' Hrun Hd. pose proof (debug_kept_calls T cs w Hd) as H.
    rewrite Hrun in H. exact H. }
  split; [| split; [exact Hcalls |]].
  - intros d w. rewrite apteryx_init_eq. eexists. split; reflexivity.
  - intros e cs w w' Hrun.
    change (run_calls T ((e, CallInit true) :: cs) w)
      with (bind (forget (apteryx_init true)) (fun _ => run_calls T cs) w)
      in Hrun.
    unfold bind at 1, forget, bind at 1 in Hrun.
    rewrite apteryx_init_eq in Hrun. simpl in Hrun.
    apply (Hcalls cs _ w' Hrun). simpl. apply orb_true_r.
Qed.

Lemma debug_flag_monotone_witness :
  let T := answering in
  let cs := [(linux, CallInit true); (linux, CallInit false);
             (linux, CallSet "/a" ["x"%byte]); (linux, CallShutdown);
             (linux, CallShutdown)] in
  let w := at_start tt in
  run_calls T cs w = Returned (tt, final_world (run_calls T cs w) w) /\
  debug (glob (final_world (run_calls T cs w) w)) = true.
Proof.
  intros T cs w.
  assert (Hrun : run_calls T cs w
                 = Returned (tt, final_world (run_calls T cs w) w))
    by reflexivity.
  split; [exact Hrun |].
  destruct (debug_flag_monotone T) as (_ & _ & H).
  exact (H linux (tl cs) w _ Hrun).
Defined.

(** ** Paths at the API boundary *)

Lemma special_paths_are_roots p : In p special_paths -> is_root (Some p) = true.
Proof.
  simpl. intros [<- | [<- | [<- | [<- | []]]]]; reflexivity.
Qed.

(** C2, as the code has it.  Each of the four special paths is taken
    by [apteryx_search], which sends the empty root prefix, and by
    [apteryx_watch], which sends the pattern ["/*"].  Of the other
    calls, set, get, prune and provide turn away the two special paths
    that do not start with a slash, [""] and ["*"]: nothing is sent and
    the call returns false, or is aborted by the assertion when debug is
    on.  ["/"] and ["/*"] pass their check and go to the broker. *)
Theorem special_paths_at_the_client {B} (T : transport B) (e : env)
    (w : world B) (p : string) :
  In p special_paths ->
  rpc_connect_service T (broker w) = true ->
  (apteryx_search T e (Some p) w = apteryx_search T e (Some "") w /\
   sends (apteryx_search T e (Some p)) w (ReqSearch {| search_path := "" |}))
  /\
  (forall cb priv,
     apteryx_watch T e (Some p) cb priv w
       = apteryx_watch T e (Some "/*") cb priv w /\
     sends (apteryx_watch T e (Some p) cb priv) w
       (ReqWatch {| watch_path := "/*"; watch_value := [];
                    watch_id := wrap_unsigned 64 (pid e);
                    watch_cb := handle_of_ptr cb;
                    watch_priv := handle_of_ptr priv |}))
  /\
  (p = "" \/ p = "*" ->
   forall v out cb priv,
     apteryx_set T e p v w = rejected e false w /\
     apteryx_get T e p out w = rejected e (false, out) w /\
     apteryx_prune T e p w = rejected e false w /\
     apteryx_provide T e p cb priv w = rejected e false w)
  /\
  (p = "/" \/ p = "/*" ->
   forall v out cb priv,
     sends (apteryx_set T e p v) w
       (ReqSet {| set_path := p; set_value := v |}) /\
     sends (apteryx_get T e p out) w (ReqGet {| get_path := p |}) /\
     sends (apteryx_prune T e p) w (ReqPrune {| prune_path := p |}) /\
     sends (apteryx_provide T e p cb priv) w
       (ReqProvide {| provide_path := p;
                      provide_id := wrap_unsigned 64 (pid e);
                      provide_cb := handle_of_ptr cb;
                      provide_priv := handle_of_ptr priv |})).
Proof.
  intros Hp Hc. pose proof (special_paths_are_roots p Hp) as Hroot.
  repeat split.
  - apply apteryx_search_root, Hroot.
  - apply sends_search; assumption.
  - apply apteryx_watch_root, Hroot.
  - pose proof (sends_watch T e (Some p) cb priv w) as H.
    unfold watch_target in H. rewrite Hroot in H. apply H; [reflexivity | exact Hc].
  - destruct H as [-> | ->]; apply apteryx_set_rejects; reflexivity.
  - destruct H as [-> | ->]; apply apteryx_get_rejects; reflexivity.
  - destruct H as [-> | ->]; apply apteryx_prune_rejects; reflexivity.
  - destruct H as [-> | ->]; apply apteryx_provide_rejects; reflexivity.
  - destruct H as [-> | ->]; apply sends_set; (reflexivity || exact Hc).
  - destruct H as [-> | ->]; apply sends_get; (reflexivity || exact Hc).
  - destruct H as [-> | ->]; apply sends_prune; (reflexivity || exact Hc).
  - destruct H as [-> | ->]; apply sends_provide; (reflexivity || exact Hc).
Qed.

Lemma special_paths_at_the_client_witness :
  In "/" special_paths /\
  rpc_connect_service answering (broker (at_start tt)) = true /\
  sends (apteryx_set answering linux "/" ["x"%byte]) (at_start tt)
    (ReqSet {| set_path := "/"; set_value := ["x"%byte] |}).
Proof.
  assert (Hp : In "/" special_paths) by (simpl; auto).
  assert (Hc : rpc_connect_service answering (broker (at_start tt)) = true)
    by reflexivity.
  split; [exact Hp |]. split; [exact Hc |].
  destruct (special_paths_at_the_client answering linux (at_start tt) "/" Hp Hc)
    as (_ & _ & _ & H).
  destruct (H (or_introl eq_refl) ["x"%byte]
              {| out_value := None; out_size := 0 |} 0 0) as (Hset & _).
  exact Hset.
Defined.

(** C2 as stated fails: ["/"] is one of the special paths, yet
    [apteryx_set] does not turn it away; the request is sent and the
    call returns true. *)
Lemma set_on_root_is_sent :
  In "/" special_paths /\
  returned_value (apteryx_set answering linux "/" ["x"%byte] (at_start tt))
  = Some true /\
  final_trace (apteryx_set answering linux "/" ["x"%byte] (at_start tt))
  = [EvConnect true;
     EvRpc (ReqSet {| set_path := "/"; set_value := ["x"%byte] |})].
Proof. split; [simpl; auto |]. split; reflexivity. Qed.

(** C3, as the code has it.  A path that does not start with a slash,
    the empty path included, is turned away by set, get, prune and
    provide, and by watch unless it is one of the special paths, which
    watch replaces by ["/*"].  Search turns away a prefix that is not
    special and does not start with a slash, does not end in one, or
    contains two in a row.  Turned away means: no connection is made,
    nothing is sent, the world is as before, and the call returns false
    (search: the empty list) or, when debug is on, is aborted by the
    assertion. *)
Theorem invalid_paths_turned_away {B} (T : transport B) (e : env)
    (w : world B) (p : string) :
  (not_slash_first p = true ->
   forall v out cb priv,
     apteryx_set T e p v w = rejected e false w /\
     apteryx_get T e p out w = rejected e (false, out) w /\
     apteryx_prune T e p w = rejected e false w /\
     apteryx_provide T e p cb priv w = rejected e false w /\
     (is_root (Some p) = false ->
      apteryx_watch T e (Some p) cb priv w = rejected e false w)) /\
  (is_root (Some p) = false ->
   not_slash_first p || not_slash_last p || strstr p "//" = true ->
   apteryx_search T e (Some p) w = rejected e [] w) /\
  (forall A (r : A),
     (debug (glob w) = false -> rejected e r w = Returned (r, w)) /\
     (debug (glob w) = true -> NDEBUG e = false -> rejected e r w = Aborted)).
Proof.
  split; [| split].
  - intros H v out cb priv. repeat split.
    + apply apteryx_set_rejects, H.
    + apply apteryx_get_rejects, H.
    + apply apteryx_prune_rejects, H.
    + apply apteryx_provide_rejects, H.
    + intros Hr. apply apteryx_watch_rejects; assumption.
  - apply apteryx_search_rejects.
  - intros A r. split; [apply rejected_quietly | apply rejected_aborts].
Qed.

Lemma invalid_paths_turned_away_witness :
  not_slash_first "a//b" = true /\
  is_root (Some "a//b") = false /\
  apteryx_watch answering linux (Some "a//b") 1 2 (at_start tt)
  = Returned (false, at_start tt) /\
  apteryx_search answering linux (Some "a//b") (at_start tt)
  = Returned ([], at_start tt).
Proof.
  assert (H1 : not_slash_first "a//b" = true) by reflexivity.
  assert (H2 : is_root (Some "a//b") = false) by reflexivity.
  split; [exact H1 |]. split; [exact H2 |].
  destruct (invalid_paths_turned_away answering linux (at_start tt) "a//b")
    as (Hcalls & Hsearch & Hrej).
  destruct (Hcalls H1 [] {| out_value := None; out_size := 0 |} 1 2)
    as (_ & _ & _ & _ & Hwatch).
  split.
  - rewrite (Hwatch H2). apply (Hrej bool false). reflexivity.
  - rewrite (Hsearch H2 eq_refl). apply (Hrej (list string) []). reflexivity.
Defined.

(** Two slashes in a row do not stop [apteryx_set]: only the first
    character of the path is looked at. *)
Lemma set_with_double_slash_is_sent :
  strstr "/entity//zones" "//" = true /\
  returned_value
    (apteryx_set answering linux "/entity//zones" ["x"%byte] (at_start tt))
  = Some true /\
  final_trace
    (apteryx_set answering linux "/entity//zones" ["x"%byte] (at_start tt))
  = [EvConnect true;
     EvRpc (ReqSet {| set_path := "/entity//zones";
                      set_value := ["x"%byte] |})].
Proof. repeat split; reflexivity. Qed.

(** C3 as stated fails: the empty path is not turned away by
    [apteryx_watch]; the request goes out with the pattern ["/*"] and
    the call returns true. *)
Lemma watch_on_empty_path_is_sent :
  returned_value (apteryx_watch answering linux (Some "") 1 2 (at_start tt))
  = Some true /\
  final_trace (apteryx_watch answering linux (Some "") 1 2 (at_start tt))
  = [EvConnect true;
     EvRpc (ReqWatch {| watch_path := "/*"; watch_value := [];
                        watch_id := 4711; watch_cb := 1; watch_priv := 2 |});
     EvThreadCreate 2].
Proof. split; reflexivity. Qed.

(** C8, as the code has it.  [apteryx_get] on a path that does not
    begin with a slash leaves the caller's [*value] and [*size] as they
    were and contacts nobody; it returns false when debug is off, and is
    aborted by the assertion when debug is on. *)
Theorem get_keeps_outputs_on_bad_path {B} (T : transport B) (e : env)
    (w : world B) (p : string) (out : outputs) :
  not_slash_first p = true ->
  apteryx_get T e p out w = rejected e (false, out) w /\
  (debug (glob w) = false ->
   apteryx_get T e p out w = Returned ((false, out), w)) /\
  (debug (glob w) = true -> NDEBUG e = false ->
   apteryx_get T e p out w = Aborted).
Proof.
  intros H. rewrite (apteryx_get_rejects T e p out w H).
  split; [reflexivity |].
  split; [apply rejected_quietly | apply rejected_aborts].
Qed.

Lemma get_keeps_outputs_on_bad_path_witness :
  not_slash_first "entity/zones" = true /\
  apteryx_get answering linux "entity/zones"
    {| out_value := Some ["o"%byte; "l"%byte; "d"%byte]; out_size := 3 |}
    (at_start tt)
  = Returned
      ((false,
        {| out_value := Some ["o"%byte; "l"%byte; "d"%byte]; out_size := 3 |}),
       at_start tt).
Proof.
  assert (H : not_slash_first "entity/zones" = true) by reflexivity.
  split; [exact H |].
  apply (get_keeps_outputs_on_bad_path answering linux (at_start tt)
           "entity/zones" _ H).
  reflexivity.
Defined.

(** C8 as stated fails: after [apteryx_init (true)] the call does not
    return false on such a path, the assertion aborts it. *)
Lemma get_on_bad_path_aborts_in_debug :
  not_slash_first "entity/zones" = true /\
  (apteryx_init true ;;;
   apteryx_get answering linux "entity/zones"
     {| out_value := None; out_size := 0 |}) (at_start tt)
  = Aborted.
Proof. split; reflexivity. Qed.

(** ** Values that come back *)

Lemma get_result_empty (r : Apteryx__GetResult) :
  size_of (result_value r) = 0 ->
  get_result (Closure (Some r)) = (false, {| out_value := None; out_size := 0 |}).
Proof. intros H. unfold get_result. simpl. rewrite H. reflexivity. Qed.

Lemma get_result_bytes (r : Apteryx__GetResult) :
  size_of (result_value r) <> 0 ->
  get_result (Closure (Some r))
  = (true, {| out_value := Some (result_value r);
              out_size := size_of (result_value r) |}).
Proof.
  intros H. unfold get_result. simpl.
  destruct (Z.eqb_spec (size_of (result_value r)) 0); [contradiction |].
  reflexivity.
Qed.

(** C4.  When the reply to GET carries a value of length 0,
    [apteryx_get] leaves [*value] NULL and [*size] 0 and returns false.
    The reply is all the client sees of the broker, so two paths whose
    replies are both of length 0, whatever the reason, give the same
    outcome. *)
Theorem get_conflates_empty_and_absent {B} (T : transport B) (e : env)
    (w : world B) (p : string) (out : outputs) b evs r :
  not_slash_first p = false ->
  rpc_connect_service T (broker w) = true ->
  apteryx__server__get T {| get_path := p |} (broker w)
    = (b, evs, Closure (Some r)) ->
  size_of (result_value r) = 0 ->
  apteryx_get T e p out w =
  Returned ((false, {| out_value := None; out_size := 0 |}),
            after_rpc (ReqGet {| get_path := p |}) b evs w) /\
  (forall (w2 : world B) p2 out2 b2 evs2 r2,
     not_slash_first p2 = false ->
     rpc_connect_service T (broker w2) = true ->
     apteryx__server__get T {| get_path := p2 |} (broker w2)
       = (b2, evs2, Closure (Some r2)) ->
     size_of (result_value r2) = 0 ->
     returned_value (apteryx_get T e p2 out2 w2)
     = returned_value (apteryx_get T e p out w)).
Proof.
  intros H Hc Hs Hz.
  rewrite (apteryx_get_reply T e p out w b evs _ H Hc Hs).
  rewrite (get_result_empty r Hz). split; [reflexivity |].
  intros w2 p2 out2 b2 evs2 r2 H2 Hc2 Hs2 Hz2.
  rewrite (apteryx_get_reply T e p2 out2 w2 b2 evs2 _ H2 Hc2 Hs2).
  rewrite (get_result_empty r2 Hz2). reflexivity.
Qed.

Lemma get_conflates_empty_and_absent_witness :
  let T := answering in
  let w := at_start tt in
  not_slash_first "/entity/zones/private/name" = false /\
  rpc_connect_service T (broker w) = true /\
  apteryx__server__get T {| get_path := "/entity/zones/private/name" |}
    (broker w)
  = (tt, [], Closure (Some {| result_value := [] |})) /\
  size_of (result_value {| result_value := [] |}) = 0 /\
  apteryx_get T linux "/entity/zones/private/name"
    {| out_value := Some ["?"%byte]; out_size := 1 |} w
  = Returned ((false, {| out_value := None; out_size := 0 |}),
              after_rpc (ReqGet {| get_path := "/entity/zones/private/name" |})
                tt [] w).
Proof.
  intros T w.
  assert (H1 : not_slash_first "/entity/zones/private/name" = false)
    by reflexivity.
  assert (H2 : rpc_connect_service T (broker w) = true) by reflexivity.
  assert (H3 : apteryx__server__get T
                 {| get_path := "/entity/zones/private/name" |} (broker w)
               = (tt, [], Closure (Some {| result_value := [] |})))
    by reflexivity.
  assert (H4 : size_of (result_value {| result_value := [] |}) = 0)
    by reflexivity.
  repeat (split; [assumption |]).
  apply (get_conflates_empty_and_absent T linux w _ _ _ _ _ H1 H2 H3 H4).
Defined.

Lemma apteryx__watch_dispatch (cb priv id : Z) (path : string) :
  is_pointer cb -> cb <> 0 -> is_pointer priv ->
  forall v : bytes,
    apteryx__watch {| watch_path := path; watch_value := v; watch_id := id;
                      watch_cb := cb; watch_priv := priv |}
    = [EvWatchCb cb path priv (if size_of v =? 0 then None else Some v)
         (size_of v);
       EvOKResult].
Proof.
  intros Hcb Hnz Hpriv v. unfold apteryx__watch. simpl.
  rewrite (ptr_of_handle_id cb Hcb), (ptr_of_handle_id priv Hpriv).
  destruct (Z.eqb_spec cb 0); [contradiction |].
  destruct (Z.eqb_spec (size_of v) 0) as [-> | Hne]; reflexivity.
Qed.

(** C7.  The handles [apteryx_watch] puts into its request are the
    callback and the private pointer themselves.  When a watch message
    carrying these handles comes in, [apteryx__watch] calls exactly that
    callback, with the path of the message, that private pointer and the
    value of the message, and then acknowledges; a value of length 0 is
    passed as NULL with size 0. *)
Theorem watch_callback_round_trip (cb priv id : Z) (path : string) (v : bytes) :
  is_pointer cb -> cb <> 0 -> is_pointer priv ->
  (forall B (T : transport B) e (w : world B) pattern,
     not_slash_first (watch_target pattern) = false ->
     rpc_connect_service T (broker w) = true ->
     sends (apteryx_watch T e pattern cb priv) w
       (ReqWatch {| watch_path := watch_target pattern; watch_value := [];
                    watch_id := wrap_unsigned 64 (pid e);
                    watch_cb := cb; watch_priv := priv |})) /\
  apteryx__watch {| watch_path := path; watch_value := v; watch_id := id;
                    watch_cb := cb; watch_priv := priv |}
  = [EvWatchCb cb path priv (if size_of v =? 0 then None else Some v)
       (size_of v);
     EvOKResult] /\
  apteryx__watch {| watch_path := path; watch_value := []; watch_id := id;
                    watch_cb := cb; watch_priv := priv |}
  = [EvWatchCb cb path priv None 0; EvOKResult].
Proof.
  intros Hcb Hnz Hpriv.
  pose proof (apteryx__watch_dispatch cb priv id path Hcb Hnz Hpriv) as Hd.
  split; [| split; [apply Hd | apply (Hd [])]].
  intros B T e w pattern H Hc.
  pose proof (sends_watch T e pattern cb priv w H Hc) as Hs.
  rewrite (handle_of_ptr_id cb Hcb), (handle_of_ptr_id priv Hpriv) in Hs.
  exact Hs.
Qed.

Lemma watch_callback_round_trip_witness :
  is_pointer 305419896 /\ 305419896 <> 0 /\ is_pointer 0 /\
  apteryx__watch {| watch_path := "/entity/zones/private/state";
                    watch_value := []; watch_id := 4711;
                    watch_cb := 305419896; watch_priv := 0 |}
  = [EvWatchCb 305419896 "/entity/zones/private/state" 0 None 0; EvOKResult].
Proof.
  assert (H1 : is_pointer 305419896) by (unfold is_pointer; lia).
  assert (H2 : 305419896 <> 0) by lia.
  assert (H3 : is_pointer 0) by (unfold is_pointer; lia).
  repeat (split; [assumption |]).
  apply (watch_callback_round_trip 305419896 0 4711
           "/entity/zones/private/state" [] H1 H2 H3).
Defined.

(** C10.  [apteryx_get_int] returns -1 whenever the [apteryx_get] it
    makes returns false or leaves no value: when the broker cannot be
    reached, when the reply brings no value, and on a path that is
    turned away, if the call returns at all.  A path that does not start
    with a slash is turned away as [apteryx_get] turns it away: the
    result is -1 and nothing has changed, unless the assertion of debug
    mode aborts the call; the empty path alone never gets as far as
    [apteryx_get] and gives -1 in debug mode too.  The call returns -1
    as well when the reply brings the decimal text of -1, so the two
    cannot be told apart from the result. *)
Theorem get_int_minus_one {B} (T : transport B) (e : env) (w : world B)
    (path : string) (key : option string) :
  let full_path := full_path_of path key in
  let out0 := {| out_value := None; out_size := strlen full_path |} in
  (forall ok out w',
     apteryx_get T e full_path out0 w = Returned ((ok, out), w') ->
     ok = false \/ out_value out = None ->
     apteryx_get_int T e path key w = Returned (-1, w')) /\
  (not_slash_first full_path = true ->
   apteryx_get_int T e path key w
   = if strlen full_path =? 0 then Returned (-1, w) else rejected e (-1) w) /\
  (not_slash_first full_path = false ->
   rpc_connect_service T (broker w) = false ->
   apteryx_get_int T e path key w = Returned (-1, after_refusal w)) /\
  (forall b evs res,
     not_slash_first full_path = false ->
     rpc_connect_service T (broker w) = true ->
     apteryx__server__get T {| get_path := full_path |} (broker w)
       = (b, evs, res) ->
     (fst (get_result res) = false ->
      apteryx_get_int T e path key w
      = Returned (-1, after_rpc (ReqGet {| get_path := full_path |}) b evs w))
     /\
     (res = Closure (Some {| result_value := (sprintf_d (-1) ++ [NUL])%list |}) ->
      apteryx_get_int T e path key w
      = Returned (-1, after_rpc (ReqGet {| get_path := full_path |}) b evs w))).
Proof.
  intros full_path out0.
  assert (Hgen : forall ok out w',
     apteryx_get T e full_path out0 w = Returned ((ok, out), w') ->
     ok = false \/ out_value out = None ->
     apteryx_get_int T e path key w = Returned (-1, w')).
  { unfold apteryx_get_int. fold full_path. fold out0.
    destruct (Z.eqb_spec (strlen full_path) 0) as [Hz | Hnz]; simpl.
    - assert (Hempty : full_path = EmptyString).
      { destruct full_path; [reflexivity |]. unfold strlen in Hz.
        simpl in Hz. lia. }
      rewrite Hempty.
      rewrite (apteryx_get_rejects T e EmptyString out0 w eq_refl).
      unfold rejected.
      intros ok out w' Hg _. destruct (_ && _); [discriminate |].
      inversion Hg; subst. reflexivity.
    - unfold bind.
      intros ok out w' -> Hfail. destruct out as [[v |] n]; simpl in *.
      + destruct Hfail as [-> | Hv]; [reflexivity | discriminate].
      + destruct ok; reflexivity. }
  split; [exact Hgen |]. split; [| split].
  - intros Hp. unfold apteryx_get_int. fold full_path. fold out0.
    destruct (strlen full_path =? 0); [reflexivity |]. simpl. unfold bind.
    rewrite (apteryx_get_rejects T e full_path out0 w Hp). unfold rejected.
    destruct (_ && _); reflexivity.
  - intros Hp Hc. apply (Hgen false {| out_value := None; out_size := 0 |});
      [| left; reflexivity].
    apply apteryx_get_refused; assumption.
  - intros b evs res Hp Hc Hs.
    pose proof (apteryx_get_reply T e full_path out0 w b evs res Hp Hc Hs)
      as Hget.
    split.
    + intros Hr. destruct (get_result res) as [ok out] eqn:Hg.
      apply (Hgen ok out); [exact Hget | left; exact Hr].
    + intros ->. revert Hget. unfold apteryx_get_int. fold full_path.
      fold out0.
      destruct (Z.eqb_spec (strlen full_path) 0) as [Hz | Hnz]; simpl.
      * destruct full_path; [discriminate Hp |]. unfold strlen in Hz.
        simpl in Hz. lia.
      * unfold bind. intros ->. reflexivity.
Qed.

Lemma get_int_minus_one_witness :
  let T := answering in
  let w := at_start tt in
  let w' := after_rpc (ReqGet {| get_path := "/counters/rx" |}) tt [] w in
  apteryx_get T linux "/counters/rx" {| out_value := None; out_size := 12 |} w
  = Returned ((false, {| out_value := None; out_size := 0 |}), w') /\
  apteryx_get_int T linux "/counters" (Some "rx") w = Returned (-1, w').
Proof.
  intros T w w'.
  assert (Hg : apteryx_get T linux (full_path_of "/counters" (Some "rx"))
                 {| out_value := None;
                    out_size := strlen (full_path_of "/counters" (Some "rx")) |}
                 w
               = Returned ((false, {| out_value := None; out_size := 0 |}), w'))
    by reflexivity.
  split; [exact Hg |].
  destruct (get_int_minus_one T linux w "/counters" (Some "rx")) as (H & _).
  apply (H _ _ _ Hg). left. reflexivity.
Defined.

(** C10 as stated fails on an invalid path: once debug mode is on,
    [apteryx_get_int] on a path that does not start with a slash does
    not return -1, the assertion in [apteryx_get] aborts the call. *)
Lemma get_int_on_bad_path_aborts_in_debug :
  not_slash_first (full_path_of "entity" (Some "zones")) = true /\
  (apteryx_init true ;;;
   apteryx_get_int answering linux "entity" (Some "zones")) (at_start tt)
  = Aborted.
Proof. split; reflexivity. Qed.

(** ** The broker's side *)

Section BrokerFacts.
Context (user : provider).
Implicit Types (w : world Broker.state) (e : env).

Abbreviation stubs := (Broker.stubs user).


(** A [set] that returned true went through the broker. *)
Lemma apteryx_set_succeeded e P V w w1 :
  apteryx_set stubs e P V w = Returned (true, w1) ->
  not_slash_first P = false /\
  Broker.accepting (broker w) = true /\
  w1 = after_rpc (ReqSet {| set_path := P; set_value := V |})
         {| Broker.accepting := Broker.accepting (broker w);
            Broker.db := Broker.c1_set P V (Broker.db (broker w));
            Broker.watchers := Broker.watchers (broker w);
            Broker.providers := Broker.providers (broker w);
            Broker.listening := Broker.listening (broker w);
            Broker.can_publish := Broker.can_publish (broker w) |}
         (List.flat_map (Broker.deliver (Broker.listening (broker w)) P V)
            (Broker.matched P (Broker.watchers (broker w)))) w.
Proof.
  intros Hs. destruct (not_slash_first P) eqn:Hp.
  { rewrite (apteryx_set_rejects stubs e P V w Hp) in Hs. unfold rejected in Hs.
    destruct (_ && _); discriminate. }
  destruct (Broker.accepting (broker w)) eqn:Hc.
  2:{ rewrite (apteryx_set_refused stubs e P V w Hp Hc) in Hs. discriminate. }
  rewrite (apteryx_set_reply stubs e P V w _ _ _ Hp Hc eq_refl) in Hs.
  simpl in Hs. inversion Hs as [Hw]. rewrite Hc.
  repeat split; reflexivity.
Qed.

Lemma no_provider_found (P : string) (r : gmap (string * Z) (Z * Z)) :
  (forall id : Z, r !! (P, id) = None) ->
  List.find (fun row => String.eqb (fst (fst row)) P) (map_to_list r) = None.
Proof.
  intros Hnone.
  destruct (List.find _ _) as [[[p id] cp] |] eqn:Hf; [| reflexivity].
  apply List.find_some in Hf as [Hin Heq]. simpl in Heq.
  apply String.eqb_eq in Heq. subst p.
  apply list_elem_of_In, elem_of_map_to_list in Hin.
  rewrite Hnone in Hin. discriminate.
Qed.

Lemma serve_get_stored (P : string) (V : bytes) (s : Broker.state) :
  Broker.db s !! P = Some V ->
  Broker.serve_get user {| get_path := P |} s
  = (s, [], Closure (Some {| result_value := V |})).
Proof. intros H. unfold Broker.serve_get. simpl. rewrite H. reflexivity. Qed.

Lemma serve_get_absent (P : string) (s : Broker.state) :
  Broker.db s !! P = None ->
  (forall id : Z, Broker.providers s !! (P, id) = None) ->
  Broker.serve_get user {| get_path := P |} s
  = (s, [], Closure (Some {| result_value := [] |})).
Proof.
  intros H Hn. unfold Broker.serve_get. simpl. rewrite H.
  rewrite (no_provider_found P _ Hn). reflexivity.
Qed.

Lemma size_of_zero (V : bytes) : size_of V = 0 -> V = [].
Proof. destruct V; [reflexivity |]. unfold size_of. simpl. lia. Qed.

End BrokerFacts.

(** C1.  On the broker of the specification: once
    [apteryx_set (P, V)] has returned true for a valid path [P], with no
    provider registered on [P], the next [apteryx_get (P)] hands back
    the bytes of [V] and the length of [V].  For [V] of length 0 this
    is the NULL pointer with size 0, and the call then returns false;
    otherwise it returns true. *)
Theorem set_then_get_round_trip (user : provider) (e e' : env)
    (w w1 : world Broker.state) (P : string) (V : bytes) (out : outputs) :
  Broker.valid_path P = true ->
  apteryx_set (Broker.stubs user) e P V w = Returned (true, w1) ->
  (forall id : Z, Broker.providers (broker w) !! (P, id) = None) ->
  exists out' w2,
    apteryx_get (Broker.stubs user) e' P out w1
      = Returned ((negb (size_of V =? 0), out'), w2) /\
    out_bytes out' = V /\
    out_size out' = size_of V /\
    out_value out' = (if size_of V =? 0 then None else Some V).
Proof.
  intros _ Hset Hnone.
  destruct (apteryx_set_succeeded user e P V w w1 Hset) as (Hp & Hc & ->).
  set (b1 := {| Broker.accepting := Broker.accepting (broker w);
                Broker.db := Broker.c1_set P V (Broker.db (broker w));
                Broker.watchers := Broker.watchers (broker w);
                Broker.providers := Broker.providers (broker w) |}).
  set (w1 := after_rpc _ b1 _ w).
  assert (Hc1 : rpc_connect_service (Broker.stubs user) (broker w1) = true)
    by exact Hc.
  destruct (Z.eqb_spec (size_of V) 0) as [Hz | Hnz].
  - assert (Hget : Broker.serve_get user {| get_path := P |} b1
                   = (b1, [], Closure (Some {| result_value := [] |}))).
    { apply serve_get_absent; [| exact Hnone].
      simpl. unfold Broker.c1_set. rewrite Hz. simpl. apply lookup_delete_eq. }
    rewrite (apteryx_get_reply (Broker.stubs user) e' P out w1 _ _ _
               Hp Hc1 Hget).
    rewrite get_result_empty by reflexivity.
    eexists. eexists. split; [reflexivity |].
    rewrite (size_of_zero V Hz). repeat split; reflexivity.
  - assert (Hget : Broker.serve_get user {| get_path := P |} b1
                   = (b1, [], Closure (Some {| result_value := V |}))).
    { apply serve_get_stored. simpl. unfold Broker.c1_set.
      destruct (Z.eqb_spec (size_of V) 0); [contradiction |].
      apply lookup_insert_eq. }
    rewrite (apteryx_get_reply (Broker.stubs user) e' P out w1 _ _ _
               Hp Hc1 Hget).
    rewrite get_result_bytes by exact Hnz.
    eexists. eexists. split; [reflexivity |]. simpl.
    repeat split. unfold out_bytes, size_of. simpl.
    rewrite Nat2Z.id. apply firstn_all.
Qed.

Lemma set_then_get_round_trip_witness :
  let T := Broker.stubs no_provider in
  let P := "/entity/zones/private/raw" in
  let V := ["001"; "002"; "003"; "004"; "005"; "006"; "007"; "008"]%byte in
  let w := at_start Broker.empty in
  let w1 := final_world (apteryx_set T linux P V w) w in
  Broker.valid_path P = true /\
  apteryx_set T linux P V w = Returned (true, w1) /\
  returned_value
    (apteryx_get T linux P {| out_value := None; out_size := 0 |} w1)
  = Some (true, {| out_value := Some V; out_size := 8 |}).
Proof.
  intros T P V w w1.
  assert (H1 : Broker.valid_path P = true) by reflexivity.
  assert (H2 : apteryx_set T linux P V w = Returned (true, w1)) by reflexivity.
  split; [exact H1 |]. split; [exact H2 |].
  destruct (set_then_get_round_trip no_provider linux linux w w1 P V
              {| out_value := None; out_size := 0 |} H1 H2
              (fun id => lookup_empty (P, id)))
    as (out' & w2 & Hget & _ & Hsize & Hvalue).
  fold T in Hget. rewrite Hget. simpl.
  destruct out' as [v n]. simpl in Hsize, Hvalue. subst v n. reflexivity.
Defined.

(** ** Notifications *)

Section Notifications.
Context (user : provider).
Implicit Types (w : world Broker.state) (e : env) (up : gset Z).












End Notifications.




(** C5 as stated fails in a second way: [apteryx_watch] returns true
    also when [pipe] fails in the new listener, and after the last
    [apteryx_shutdown] of the process the subscription is still there;
    in both cases a set on a matching path returns true and runs no
    callback. *)
Lemma unreachable_listener_is_not_served :
  let T := Broker.stubs no_provider in
  let V := ["u"; "p"; "000"]%byte in
  let no_pipe := {| NDEBUG := false; pid := 4711; self := 1; new_thread := 2;
                    pipefd := None; listener_exits := true;
                    heap_after := [] |} in
  let watched e :=
    final_world
      ((apteryx_init false ;;;
        apteryx_watch T e (Some public_state) test_cb 0) (at_start Broker.empty))
      (at_start Broker.empty) in
  let left := final_world (apteryx_shutdown T linux (watched linux))
                (watched linux) in
  returned_value
    ((apteryx_init false ;;;
      apteryx_watch T no_pipe (Some public_state) test_cb 0)
       (at_start Broker.empty)) = Some true /\
  returned_value (apteryx_set T linux public_state V (watched no_pipe))
  = Some true /\
  List.filter (runs_callback test_cb)
    (new_events (apteryx_set T linux public_state V) (watched no_pipe)) = [] /\
  Broker.watchers (broker left) !! (public_state, 4711) = Some (test_cb, 0) /\
  returned_value (apteryx_set T linux public_state V left) = Some true /\
  List.filter (runs_callback test_cb)
    (new_events (apteryx_set T linux public_state V) left) = [].
Proof. repeat split; vm_compute; reflexivity. Qed.

(** * Further properties of the client library *)

(** ** Integers and strings as values *)

Lemma digits_value_uint (d : Decimal.uint) :
  forall acc rest,
    digits_value acc (list_byte_of_string (NilEmpty.string_of_uint d) ++ rest)%list
    = digits_value (horner acc d) rest.
Proof.
  induction d; intros acc rest; simpl; try apply IHd. reflexivity.
Qed.

Lemma horner_pos (d : Decimal.uint) :
  forall p, horner (Zpos p) d = Zpos (Pos.of_uint_acc d p).
Proof.
  induction d; intros p; simpl; try reflexivity;
    rewrite <- IHd; f_equal; lia.
Qed.

Lemma horner_zero (d : Decimal.uint) : horner 0 d = Z.of_N (Pos.of_uint d).
Proof.
  induction d; simpl; try reflexivity; try exact IHd;
    apply horner_pos.
Qed.

Lemma strtol_unsigned (b : Byte.byte) (s : bytes) :
  digit_of b <> None -> strtol (b :: s) = clamp_long (digits_value 0 (b :: s)).
Proof.
  intros Hb. destruct b; try (exfalso; apply Hb; reflexivity); reflexivity.
Qed.

Lemma strtol_negative (s : bytes) :
  strtol ("-"%byte :: s) = clamp_long (- digits_value 0 s).
Proof. reflexivity. Qed.

Lemma uint_text_starts_with_digit (d : Decimal.uint) :
  d <> Decimal.Nil ->
  exists b s, list_byte_of_string (NilEmpty.string_of_uint d) = b :: s /\
              digit_of b <> None.
Proof.
  intros Hd. destruct d; try contradiction; simpl; eexists; eexists;
    (split; [reflexivity | discriminate]).
Qed.

Lemma digits_value_nul (acc : Z) (rest : bytes) :
  digits_value acc (NUL :: rest) = acc.
Proof. reflexivity. Qed.

Lemma nilzero_text (p : positive) :
  NilZero.string_of_uint (Pos.to_uint p)
  = NilEmpty.string_of_uint (Pos.to_uint p).
Proof.
  pose proof (DecimalPos.Unsigned.to_uint_nonnil p) as Hnn.
  unfold NilZero.string_of_uint. destruct (Pos.to_uint p); congruence.
Qed.

Lemma digits_of_positive (p : positive) (rest : bytes) :
  digits_value 0
    (list_byte_of_string (NilEmpty.string_of_uint (Pos.to_uint p))
     ++ NUL :: rest)%list = Zpos p.
Proof.
  rewrite digits_value_uint, digits_value_nul, horner_zero, DecimalPos.Unsigned.of_to.
  reflexivity.
Qed.

Lemma atoi_sprintf_d (v : Z) (rest : bytes) :
  int_range v -> atoi (sprintf_d v ++ NUL :: rest)%list = v.
Proof.
  intros Hv. unfold atoi, sprintf_d.
  assert (Hlong : clamp_long v = v).
  { unfold clamp_long, LONG_MIN, LONG_MAX, int_range, INT_MIN, INT_MAX in *. lia. }
  rewrite <- (wrap_signed_small v Hv) at 2. f_equal.
  rewrite <- Hlong at 2. clear Hlong Hv.
  destruct v as [| p | p].
  - reflexivity.
  - cbn [Z.to_int NilZero.string_of_int]. rewrite nilzero_text.
    destruct (uint_text_starts_with_digit _ (DecimalPos.Unsigned.to_uint_nonnil p))
      as (b & s & Htext & Hb).
    pose proof (digits_of_positive p rest) as Hval.
    rewrite Htext in *. cbn [app] in *.
    rewrite (strtol_unsigned b _ Hb), Hval. reflexivity.
  - cbn [Z.to_int NilZero.string_of_int]. rewrite nilzero_text.
    change (list_byte_of_string (String "-" ?x))
      with ("-"%byte :: list_byte_of_string x).
    cbn [app]. rewrite strtol_negative, digits_of_positive. reflexivity.
Qed.

Section Helpers.
Context {B : Type} (T : transport B).
Implicit Types (w : world B) (e : env).

Lemma slash_first_not_empty (p : string) :
  not_slash_first p = false -> (strlen p =? 0) = false.
Proof. destruct p; [discriminate |]. intros _. unfold strlen. simpl. lia. Qed.

Lemma apteryx_set_int_eq e path key v w :
  not_slash_first (full_path_of path key) = false ->
  apteryx_set_int T e path key v w
  = apteryx_set T e (full_path_of path key) (sprintf_d v ++ [NUL])%list w.
Proof.
  intros H. unfold apteryx_set_int. rewrite (slash_first_not_empty _ H).
  reflexivity.
Qed.

Lemma apteryx_set_string_eq e path key value w :
  not_slash_first (full_path_of path key) = false ->
  apteryx_set_string T e path key value w
  = apteryx_set T e (full_path_of path key)
      match value with
      | Some s => (list_byte_of_string s ++ [NUL])%list
      | None => []
      end w.
Proof.
  intros H. unfold apteryx_set_string. rewrite (slash_first_not_empty _ H).
  reflexivity.
Qed.

Lemma apteryx_get_int_reply e path key w b evs r :
  not_slash_first (full_path_of path key) = false ->
  rpc_connect_service T (broker w) = true ->
  apteryx__server__get T {| get_path := full_path_of path key |} (broker w)
    = (b, evs, Closure (Some r)) ->
  size_of (result_value r) <> 0 ->
  apteryx_get_int T e path key w
  = Returned (atoi (result_value r ++ heap_after e),
              after_rpc (ReqGet {| get_path := full_path_of path key |}) b evs w).
Proof.
  intros H Hc Hs Hn. unfold apteryx_get_int.
  rewrite (slash_first_not_empty _ H). simpl. unfold bind.
  rewrite (apteryx_get_reply T e _ _ w b evs _ H Hc Hs).
  rewrite (get_result_bytes r Hn). reflexivity.
Qed.

Lemma apteryx_get_string_reply e path key w b evs r :
  not_slash_first (full_path_of path key) = false ->
  rpc_connect_service T (broker w) = true ->
  apteryx__server__get T {| get_path := full_path_of path key |} (broker w)
    = (b, evs, Closure (Some r)) ->
  size_of (result_value r) <> 0 ->
  apteryx_get_string T e path key w
  = Returned (Some (result_value r),
              after_rpc (ReqGet {| get_path := full_path_of path key |}) b evs w).
Proof.
  intros H Hc Hs Hn. unfold apteryx_get_string.
  rewrite (slash_first_not_empty _ H). simpl. unfold bind.
  rewrite (apteryx_get_reply T e _ _ w b evs _ H Hc Hs).
  rewrite (get_result_bytes r Hn). reflexivity.
Qed.

Lemma size_of_snoc (v : bytes) (b : Byte.byte) : size_of (v ++ [b]) <> 0.
Proof. unfold size_of. rewrite length_app. simpl. lia. Qed.

Lemma until_nul_text (v : bytes) (rest : bytes) :
  Forall (fun b => b <> NUL) v -> until_nul (v ++ NUL :: rest) = v.
Proof.
  induction 1 as [| b v Hb _ IH]; simpl; [reflexivity |].
  destruct (Byte.eqb b NUL) eqn:Heq.
  - apply Byte.byte_dec_bl in Heq. contradiction.
  - rewrite IH. reflexivity.
Qed.

End Helpers.

(** [apteryx_set_int] sends the decimal text of its value with the
    closing NUL, and [apteryx_get_int] on a reply that carries this text
    returns the value: [atoi] undoes ["%d"] on every 32-bit integer. *)
Theorem set_int_get_int_round_trip {B} (T : transport B) (e : env)
    (w : world B) (path : string) (key : option string) (v : Z) b evs :
  let full_path := full_path_of path key in
  let text := (sprintf_d v ++ [NUL])%list in
  int_range v ->
  not_slash_first full_path = false ->
  rpc_connect_service T (broker w) = true ->
  apteryx__server__get T {| get_path := full_path |} (broker w)
    = (b, evs, Closure (Some {| result_value := text |})) ->
  sends (apteryx_set_int T e path key v) w
    (ReqSet {| set_path := full_path; set_value := text |}) /\
  apteryx_get_int T e path key w
  = Returned (v, after_rpc (ReqGet {| get_path := full_path |}) b evs w).
Proof.
  intros full_path text Hv Hp Hc Hs. split.
  - unfold sends. rewrite (apteryx_set_int_eq T e path key v w Hp).
    apply sends_set; assumption.
  - rewrite (apteryx_get_int_reply T e path key w b evs _ Hp Hc Hs)
      by apply size_of_snoc.
    simpl. unfold text. rewrite <- app_assoc. cbn [app].
    rewrite (atoi_sprintf_d v (heap_after e) Hv). reflexivity.
Qed.

Lemma set_int_get_int_round_trip_witness :
  let T := canned (Closure (Some APTERYX__OKRESULT__INIT))
             (Closure (Some {| result_value := (sprintf_d 123456 ++ [NUL])%list |}))
             NoResponse in
  let w := at_start tt in
  int_range 123456 /\
  apteryx_get_int T linux "/entity/zones" (Some "count") w
  = Returned (123456,
              after_rpc (ReqGet {| get_path := "/entity/zones/count" |}) tt [] w).
Proof.
  intros T w.
  assert (Hv : int_range 123456) by (unfold int_range, INT_MIN, INT_MAX; lia).
  split; [exact Hv |].
  apply (set_int_get_int_round_trip T linux w "/entity/zones"
           (Some "count") 123456 tt [] Hv eq_refl eq_refl eq_refl).
Defined.

(** [apteryx_set_string] sends the characters of its string and the
    closing NUL.  [apteryx_get_string] returns the buffer of the reply as
    it came, and read as a C string that buffer is the string that was
    set. *)
Theorem set_string_get_string_round_trip {B} (T : transport B) (e : env)
    (w : world B) (path : string) (key : option string) (s : string) b evs :
  let full_path := full_path_of path key in
  let text := (list_byte_of_string s ++ [NUL])%list in
  no_nul s ->
  not_slash_first full_path = false ->
  rpc_connect_service T (broker w) = true ->
  apteryx__server__get T {| get_path := full_path |} (broker w)
    = (b, evs, Closure (Some {| result_value := text |})) ->
  sends (apteryx_set_string T e path key (Some s)) w
    (ReqSet {| set_path := full_path; set_value := text |}) /\
  apteryx_get_string T e path key w
  = Returned (Some text,
              after_rpc (ReqGet {| get_path := full_path |}) b evs w) /\
  until_nul text = list_byte_of_string s.
Proof.
  intros full_path text Hs Hp Hc Hg. split; [| split].
  - unfold sends. rewrite (apteryx_set_string_eq T e path key _ w Hp).
    apply sends_set; assumption.
  - rewrite (apteryx_get_string_reply T e path key w b evs _ Hp Hc Hg)
      by apply size_of_snoc.
    reflexivity.
  - apply until_nul_text, Hs.
Qed.

Lemma set_string_get_string_round_trip_witness :
  let T := canned (Closure (Some APTERYX__OKRESULT__INIT))
             (Closure (Some {| result_value :=
                (list_byte_of_string "123456" ++ [NUL])%list |}))
             NoResponse in
  let w := at_start tt in
  no_nul "123456" /\
  apteryx_get_string T linux "/entity/zones" (Some "count") w
  = Returned (Some (list_byte_of_string "123456" ++ [NUL])%list,
              after_rpc (ReqGet {| get_path := "/entity/zones/count" |}) tt [] w).
Proof.
  intros T w.
  assert (Hs : no_nul "123456") by (repeat constructor; discriminate).
  split; [exact Hs |].
  apply (set_string_get_string_round_trip T linux w "/entity/zones"
           (Some "count") "123456" tt [] Hs eq_refl eq_refl eq_refl).
Defined.

(** ** Values that are not what the helper expects *)

Lemma atoi_without_number (c : Byte.byte) (rest : bytes) :
  is_space c = false -> digit_of c = None ->
  c <> "-"%byte -> c <> "+"%byte -> atoi (c :: rest) = 0.
Proof.
  intros Hsp Hd Hm Hp. unfold atoi, strtol. cbn [skip_spaces]. rewrite Hsp.
  destruct (Byte.eqb c "-") eqn:E1; [apply Byte.byte_dec_bl in E1; contradiction |].
  destruct (Byte.eqb c "+") eqn:E2; [apply Byte.byte_dec_bl in E2; contradiction |].
  cbn [digits_value]. rewrite Hd. reflexivity.
Qed.

(** A value that starts with neither a blank, a sign nor a digit reads
    as 0 with [apteryx_get_int]: text that is no number cannot be told
    from a stored 0. *)
Theorem get_int_of_text_without_number {B} (T : transport B) (e : env)
    (w : world B) (path : string) (key : option string) b evs
    (c : Byte.byte) (rest : bytes) :
  let full_path := full_path_of path key in
  is_space c = false -> digit_of c = None ->
  c <> "-"%byte -> c <> "+"%byte ->
  not_slash_first full_path = false ->
  rpc_connect_service T (broker w) = true ->
  apteryx__server__get T {| get_path := full_path |} (broker w)
    = (b, evs, Closure (Some {| result_value := c :: rest |})) ->
  apteryx_get_int T e path key w
  = Returned (0, after_rpc (ReqGet {| get_path := full_path |}) b evs w).
Proof.
  intros full_path Hsp Hd Hm Hpl Hp Hc Hg.
  rewrite (apteryx_get_int_reply T e path key w b evs _ Hp Hc Hg).
  - simpl.
    rewrite (atoi_without_number c (rest ++ heap_after e) Hsp Hd Hm Hpl).
    reflexivity.
  - unfold size_of. simpl. lia.
Qed.

Lemma get_int_of_text_without_number_witness :
  let text := (list_byte_of_string "up" ++ [NUL])%list in
  let T := canned NoResponse (Closure (Some {| result_value := text |}))
             NoResponse in
  let w := at_start tt in
  is_space "u"%byte = false /\ digit_of "u"%byte = None /\
  apteryx_get_int T linux "/interfaces/eth0" (Some "state") w
  = Returned (0, after_rpc (ReqGet {| get_path := "/interfaces/eth0/state" |})
                   tt [] w).
Proof.
  intros text T w.
  assert (H1 : is_space "u"%byte = false) by reflexivity.
  assert (H2 : digit_of "u"%byte = None) by reflexivity.
  assert (H3 : "u"%byte <> "-"%byte) by discriminate.
  assert (H4 : "u"%byte <> "+"%byte) by discriminate.
  repeat (split; [assumption |]).
  apply (get_int_of_text_without_number T linux w "/interfaces/eth0"
           (Some "state") tt [] "u"%byte _ H1 H2 H3 H4 eq_refl eq_refl eq_refl).
Defined.

Lemma full_path_empty (path : string) (key : option string) :
  full_path_of path key = "" -> (strlen (full_path_of path key) =? 0) = true.
Proof. intros ->. reflexivity. Qed.

(** When path and key make the empty string, the four helpers give up
    before any call is made: they return false, -1 and NULL and leave the
    process as it was, in debug mode too.  [apteryx_set] and [apteryx_get]
    on that same path turn it away, and debug mode aborts there. *)
Theorem helpers_refuse_empty_path {B} (T : transport B) (e : env)
    (w : world B) (path : string) (key : option string) :
  full_path_of path key = "" ->
  (forall v, apteryx_set_int T e path key v w = Returned (false, w)) /\
  (forall s, apteryx_set_string T e path key s w = Returned (false, w)) /\
  apteryx_get_int T e path key w = Returned (-1, w) /\
  apteryx_get_string T e path key w = Returned (None, w) /\
  (forall v, apteryx_set T e (full_path_of path key) v w = rejected e false w) /\
  (forall out, apteryx_get T e (full_path_of path key) out w
               = rejected e (false, out) w).
Proof.
  intros H. pose proof (full_path_empty path key H) as Hz.
  unfold apteryx_set_int, apteryx_set_string, apteryx_get_int,
    apteryx_get_string.
  rewrite Hz. simpl. repeat split; try reflexivity.
  - intros v. apply apteryx_set_rejects. rewrite H. reflexivity.
  - intros out. apply apteryx_get_rejects. rewrite H. reflexivity.
Qed.

Lemma helpers_refuse_empty_path_witness :
  let w := with_glob (set_debug true initial_globals) (at_start tt) in
  full_path_of "" None = "" /\
  apteryx_get_int answering linux "" None w = Returned (-1, w) /\
  apteryx_get answering linux "" {| out_value := None; out_size := 0 |} w
  = Aborted.
Proof.
  intros w.
  assert (H : full_path_of "" None = "") by reflexivity.
  split; [exact H |].
  destruct (helpers_refuse_empty_path answering linux w "" None H)
    as (_ & _ & Hi & _ & _ & Hg).
  split; [exact Hi |]. rewrite Hg. reflexivity.
Defined.

(** [apteryx_set] and [apteryx_prune] return true as soon as the
    closure has run, also when it ran with a NULL result because the
    request could not be processed; they return false only when it never
    ran. *)
Theorem error_reply_counts_as_success {B} (T : transport B) (e : env)
    (w : world B) (p : string) (v : bytes) b evs res :
  not_slash_first p = false ->
  rpc_connect_service T (broker w) = true ->
  (apteryx__server__set T {| set_path := p; set_value := v |} (broker w)
     = (b, evs, res) ->
   apteryx_set T e p v w
   = Returned (match res with NoResponse => false | Closure _ => true end,
               after_rpc (ReqSet {| set_path := p; set_value := v |}) b evs w)) /\
  (apteryx__server__prune T {| prune_path := p |} (broker w) = (b, evs, res) ->
   apteryx_prune T e p w
   = Returned (match res with NoResponse => false | Closure _ => true end,
               after_rpc (ReqPrune {| prune_path := p |}) b evs w)).
Proof.
  intros Hp Hc. split; intros Hs.
  - rewrite (apteryx_set_reply T e p v w b evs res Hp Hc Hs).
    destruct res; reflexivity.
  - rewrite (apteryx_prune_reply T e p w b evs res Hp Hc Hs).
    destruct res; reflexivity.
Qed.

Lemma error_reply_counts_as_success_witness :
  let T := canned (Closure None) NoResponse NoResponse in
  let w := at_start tt in
  not_slash_first "/entity/zones" = false /\
  rpc_connect_service T (broker w) = true /\
  apteryx_prune T linux "/entity/zones" w
  = Returned (true, after_rpc (ReqPrune {| prune_path := "/entity/zones" |})
                      tt [] w).
Proof.
  intros T w.
  assert (H1 : not_slash_first "/entity/zones" = false) by reflexivity.
  assert (H2 : rpc_connect_service T (broker w) = true) by reflexivity.
  repeat (split; [assumption |]).
  destruct (error_reply_counts_as_success T linux w "/entity/zones" [] tt []
              (Closure None) H1 H2) as [_ Hprune].
  apply Hprune. reflexivity.
Defined.

(** ** Search results *)

Lemma g_list_append_all (paths acc : list string) :
  fold_left (fun l p => (l ++ [p])%list) paths acc = (acc ++ paths)%list.
Proof.
  revert acc. induction paths as [| p paths IH]; intros acc; simpl.
  - symmetry. apply app_nil_r.
  - rewrite IH, <- app_assoc. reflexivity.
Qed.

Lemma search_result_paths (res : rpc_result Apteryx__SearchResult) :
  search_result res
  = match res with
    | Closure (Some r) => result_paths r
    | _ => []
    end.
Proof.
  destruct res as [| [r |]]; try reflexivity.
  unfold search_result. simpl. apply g_list_append_all.
Qed.

Lemma apteryx_search_valid_reply {B} (T : transport B) e path (w : world B)
    b evs res :
  search_accepts path = true -> rpc_connect_service T (broker w) = true ->
  apteryx__server__search T {| search_path := search_target path |} (broker w)
    = (b, evs, res) ->
  apteryx_search T e path w =
  Returned (search_result res,
            after_rpc (ReqSearch {| search_path := search_target path |})
              b evs w).
Proof.
  unfold search_accepts, search_target. intros Ha Hc Hs.
  destruct (is_root path) eqn:Hr.
  - apply apteryx_search_reply; assumption.
  - simpl in Ha. apply negb_true_iff in Ha.
    unfold apteryx_search, search_result. rewrite Hr, Ha.
    cbv [bind ret connect invoke after_rpc]. simpl. rewrite Hc. simpl.
    rewrite Hs. simpl. destruct (search_done _); reflexivity.
Qed.

(** On a path that it lets through, [apteryx_search] sends that path
    (the empty string for a root) and returns the paths of the reply in
    the order of the reply, repetitions included; when the closure ran
    without a result, or never ran, the list is empty. *)
Theorem search_returns_reply_in_order {B} (T : transport B) (e : env)
    (w : world B) (path : option string) b evs res :
  search_accepts path = true ->
  rpc_connect_service T (broker w) = true ->
  apteryx__server__search T {| search_path := search_target path |} (broker w)
    = (b, evs, res) ->
  apteryx_search T e path w
  = Returned (match res with
              | Closure (Some r) => result_paths r
              | _ => []
              end,
              after_rpc (ReqSearch {| search_path := search_target path |})
                b evs w).
Proof.
  intros Ha Hc Hs.
  rewrite (apteryx_search_valid_reply T e path w b evs res Ha Hc Hs).
  rewrite search_result_paths. reflexivity.
Qed.

Lemma search_returns_reply_in_order_witness :
  let found := ["/entity/zones/public"; "/entity/zones/private";
                "/entity/zones/public"] in
  let T := canned NoResponse NoResponse
             (Closure (Some {| result_paths := found |})) in
  let w := at_start tt in
  search_accepts (Some "/entity/zones/") = true /\
  rpc_connect_service T (broker w) = true /\
  apteryx_search T linux (Some "/entity/zones/") w
  = Returned (found,
              after_rpc (ReqSearch {| search_path := "/entity/zones/" |})
                tt [] w).
Proof.
  intros found T w.
  assert (H1 : search_accepts (Some "/entity/zones/") = true) by reflexivity.
  assert (H2 : rpc_connect_service T (broker w) = true) by reflexivity.
  repeat (split; [assumption |]).
  apply (search_returns_reply_in_order T linux w (Some "/entity/zones/")
           tt [] _ H1 H2 eq_refl).
Defined.

(** ** Users of the library *)

Section Counting.
Context {B : Type} (T : transport B).
Implicit Types (w : world B) (e : env).

Lemma apteryx_shutdown_positive e w :
  int_range (ref_count (glob w)) -> 0 < ref_count (glob w) ->
  exists w', apteryx_shutdown T e w = Returned (true, w') /\
             ref_count (glob w') = ref_count (glob w) - 1.
Proof.
  intros Hr Hpos. destruct (Z.eq_dec (ref_count (glob w)) 1) as [H1 | H1].
  - destruct (apteryx_shutdown_last_user T e w H1) as (w1 & Hs & ->).
    eexists. split; [reflexivity |]. simpl.
    destruct (stop_client_thread_returns T e
                (with_glob (set_ref_count 0 (glob w)) w))
      as (w1' & Hs' & _ & Hc).
    rewrite Hs in Hs'. inversion Hs'; subst w1'. rewrite Hc. simpl. lia.
  - rewrite apteryx_shutdown_more_users by (assumption || lia).
    eexists. split; [reflexivity |]. reflexivity.
Qed.

Lemma repeat_init (d : bool) (n : nat) :
  forall w, 0 <= ref_count (glob w) ->
    ref_count (glob w) + Z.of_nat n <= INT_MAX ->
    exists w', repeat_call n (apteryx_init d) w
               = Returned (replicate n true, w') /\
               ref_count (glob w') = ref_count (glob w) + Z.of_nat n.
Proof.
  induction n as [| n IH]; intros w H0 Hn.
  - exists w. split; [reflexivity | simpl; lia].
  - cbn [repeat_call]. unfold bind at 1. rewrite apteryx_init_eq.
    set (w1 := with_glob _ w).
    assert (H1 : ref_count (glob w1) = ref_count (glob w) + 1).
    { subst w1. simpl. apply wrap_signed_small.
      unfold int_range, INT_MIN, INT_MAX in *. lia. }
    destruct (IH w1) as (w' & Hrun & Hc); [lia | lia |].
    exists w'. unfold bind. rewrite Hrun. split; [reflexivity | lia].
Qed.

Lemma repeat_shutdown e (m : nat) :
  forall w, 0 <= ref_count (glob w) <= INT_MAX ->
    exists w', repeat_call m (apteryx_shutdown T e) w
               = Returned (replicate (Nat.min (Z.to_nat (ref_count (glob w))) m)
                             true
                           ++ replicate (m - Z.to_nat (ref_count (glob w)))
                                false, w')%list /\
               ref_count (glob w')
               = ref_count (glob w)
                 - Z.of_nat (Nat.min (Z.to_nat (ref_count (glob w))) m).
Proof.
  induction m as [| m IH]; intros w Hr.
  - exists w. rewrite Nat.min_0_r. split; [reflexivity | simpl; lia].
  - cbn [repeat_call]. unfold bind at 1.
    destruct (Z.eq_dec (ref_count (glob w)) 0) as [Hz | Hnz].
    + rewrite apteryx_shutdown_not_positive by lia.
      destruct (IH w Hr) as (w' & Hrun & Hc).
      exists w'. unfold bind. rewrite Hrun. rewrite Hz in *. simpl in *.
      rewrite Nat.sub_0_r. split; [reflexivity | lia].
    + destruct (apteryx_shutdown_positive e w) as (w1 & -> & H1);
        [unfold int_range, INT_MIN, INT_MAX in *; lia | lia |].
      destruct (IH w1) as (w' & Hrun & Hc); [lia |].
      exists w'. unfold bind. rewrite Hrun. rewrite H1 in *.
      replace (Z.to_nat (ref_count (glob w)))
        with (S (Z.to_nat (ref_count (glob w) - 1))) by lia.
      split; [reflexivity |]. simpl Nat.min. lia.
Qed.

End Counting.

(** In a process without users, after [n] calls of [apteryx_init] the
    first [min n m] of [m] calls of [apteryx_shutdown] return true and
    the others false, and [n - m] users are left. *)
Theorem init_shutdown_balance {B} (T : transport B) (e : env) (d : bool)
    (n m : nat) (w : world B) :
  ref_count (glob w) = 0 -> Z.of_nat n <= INT_MAX ->
  exists w',
    (repeat_call n (apteryx_init d) ;;; repeat_call m (apteryx_shutdown T e)) w
    = Returned (replicate (Nat.min n m) true ++ replicate (m - n) false, w')%list
    /\ ref_count (glob w') = Z.of_nat (n - m).
Proof.
  intros H0 Hn.
  destruct (repeat_init d n w) as (w1 & Hi & H1); [lia | lia |].
  destruct (repeat_shutdown T e m w1) as (w' & Hs & Hc); [lia |].
  exists w'. unfold bind. rewrite Hi, Hs.
  replace (Z.to_nat (ref_count (glob w1))) with n by lia.
  split; [reflexivity | lia].
Qed.

Lemma init_shutdown_balance_witness :
  let w := at_start tt in
  ref_count (glob w) = 0 /\ Z.of_nat 2 <= INT_MAX /\
  returned_value
    ((repeat_call 2 (apteryx_init false) ;;;
      repeat_call 3 (apteryx_shutdown answering linux)) w)
  = Some [true; true; false].
Proof.
  intros w.
  assert (H1 : ref_count (glob w) = 0) by reflexivity.
  assert (H2 : Z.of_nat 2 <= INT_MAX) by (unfold INT_MAX; lia).
  repeat (split; [assumption |]).
  destruct (init_shutdown_balance answering linux false 2 3 w H1 H2) as (w' & -> & _).
  reflexivity.
Defined.

(** ** What the data calls leave alone *)

Section Globals.
Context {B : Type} (T : transport B).
Implicit Types (w : world B) (e : env) (g : globals).

Ltac keeps_globals :=
  intros w Hw; unfold globals_are in *;
  cbv [bind ret get_glob put_glob emit invoke connect debug_flag c_assert
       run_closure handle_ok_response];
  simpl; try assumption;
  repeat (case_match; simpl in *; simplify_eq; simpl in *;
          try exact I; try assumption; try reflexivity).

Lemma globals_kept_prune e p g :
  triple (globals_are g) (apteryx_prune T e p) (fun _ => globals_are g).
Proof. unfold apteryx_prune. keeps_globals. Qed.

Lemma globals_kept_set e p v g :
  triple (globals_are g) (apteryx_set T e p v) (fun _ => globals_are g).
Proof. unfold apteryx_set. keeps_globals. Qed.

Lemma globals_kept_get e p out g :
  triple (globals_are g) (apteryx_get T e p out) (fun _ => globals_are g).
Proof. unfold apteryx_get. keeps_globals. Qed.

Lemma globals_kept_search e p g :
  triple (globals_are g) (apteryx_search T e p) (fun _ => globals_are g).
Proof. unfold apteryx_search. keeps_globals. Qed.

Lemma globals_kept_dump e fuel g :
  forall p, triple (globals_are g) (apteryx_dump T e fuel p)
              (fun _ => globals_are g).
Proof.
  induction fuel as [| fuel IH]; intros p; simpl.
  - apply triple_ret.
  - eapply triple_bind with (Q := fun _ => globals_are g); [keeps_globals |].
    intros g'. destruct (ref_count g' <=? 0).
    + eapply triple_bind with (Q := fun _ => globals_are g); [keeps_globals |].
      intros _. apply triple_ret.
    + eapply triple_bind; [apply globals_kept_get |].
      intros r.
      eapply triple_bind with (Q := fun _ => globals_are g).
      { destruct r as [[] [[v |] m]]; try apply triple_ret. keeps_globals. }
      intros _.
      eapply triple_bind; [apply globals_kept_search |].
      intros children. induction children as [| child rest IHc].
      * apply triple_ret.
      * destruct (negb _); [| exact IHc].
        eapply triple_bind; [apply IH |].
        intros [r' |]; [exact IHc | apply triple_ret].
Qed.

Lemma globals_kept_data_call e c g :
  is_data_call c = true ->
  triple (globals_are g) (run_call T e c) (fun _ => globals_are g).
Proof.
  destruct c; try discriminate; intros _; simpl; apply triple_forget.
  - apply globals_kept_prune.
  - apply globals_kept_dump.
  - apply globals_kept_set.
  - unfold apteryx_set_int. destruct (negb _);
      [apply globals_kept_set | apply triple_ret].
  - unfold apteryx_set_string. destruct (negb _);
      [apply globals_kept_set | apply triple_ret].
  - apply globals_kept_get.
  - unfold apteryx_get_int. destruct (negb _); [| apply triple_ret].
    eapply triple_bind; [apply globals_kept_get |].
    intros [[] [[v |] m]]; apply triple_ret.
  - unfold apteryx_get_string. destruct (negb _); [| apply triple_ret].
    eapply triple_bind; [apply globals_kept_get |].
    intros r. apply triple_ret.
  - apply globals_kept_search.
Qed.

End Globals.

(** The calls that read and write data leave every file-scope
    variable as it was: the flag and the count, and also the three
    variables of the listener thread. *)
Theorem data_calls_keep_globals {B} (T : transport B) (e : env)
    (c : api_call) (w w' : world B) :
  is_data_call c = true ->
  run_call T e c w = Returned (tt, w') ->
  glob w' = glob w.
Proof.
  intros Hc Hrun.
  pose proof (globals_kept_data_call T e c (glob w) Hc w eq_refl) as H.
  rewrite Hrun in H. exact H.
Qed.

Lemma data_calls_keep_globals_witness :
  let c := CallDump 3 "/" in
  let run := run_call answering linux c two_users in
  is_data_call c = true /\
  run = Returned (tt, final_world run two_users) /\
  glob (final_world run two_users) = glob two_users.
Proof.
  intros c run.
  assert (H1 : is_data_call c = true) by reflexivity.
  assert (H2 : run = Returned (tt, final_world run two_users)) by reflexivity.
  repeat (split; [assumption |]).
  apply (data_calls_keep_globals answering linux c two_users _ H1 H2).
Defined.

Section Users.
Context {B : Type} (T : transport B).
Implicit Types (w : world B) (e : env).

Lemma ref_count_after_call e c w w' :
  0 <= ref_count (glob w) ->
  ref_count (glob w) + count_inits [(e, c)] <= INT_MAX ->
  run_call T e c w = Returned (tt, w') ->
  0 <= ref_count (glob w') <= ref_count (glob w) + count_inits [(e, c)].
Proof.
  intros Hr Hn Hrun.
  assert (Hframe : forall A (m : call A),
            (forall d n, triple (config d n) m (fun _ => config d n)) ->
            forall a, m w = Returned (a, w') ->
            ref_count (glob w') = ref_count (glob w)).
  { intros A m Hm a Hmw.
    specialize (Hm (debug (glob w)) (ref_count (glob w)) w (conj eq_refl eq_refl)).
    rewrite Hmw in Hm. apply Hm. }
  assert (Hforget : forall A (m : call A),
            forget m w = Returned (tt, w') -> exists a, m w = Returned (a, w')).
  { intros A m. unfold forget, bind, ret.
    destruct (m w) as [[a w1] |]; [| discriminate].
    intros H. inversion H; subst. exists a. reflexivity. }
  destruct c; simpl in Hrun; apply Hforget in Hrun; destruct Hrun as [a Hrun];
    unfold count_inits in *; simpl in *.
  - rewrite apteryx_init_eq in Hrun. inversion Hrun; subst. simpl.
    rewrite wrap_signed_small by (unfold int_range, INT_MIN, INT_MAX in *; lia).
    lia.
  - destruct (Z.le_gt_cases (ref_count (glob w)) 0) as [Hle | Hgt].
    + rewrite apteryx_shutdown_not_positive in Hrun by exact Hle.
      inversion Hrun; subst. lia.
    + destruct (apteryx_shutdown_positive T e w) as (w1 & Hs & H1);
        [unfold int_range, INT_MIN, INT_MAX in *; lia | lia |].
      rewrite Hs in Hrun. inversion Hrun; subst. lia.
  - rewrite (Hframe _ _ (config_kept_prune T e path) _ Hrun). lia.
  - rewrite (Hframe _ _ (fun d n => config_kept_dump T e fuel d n path) _ Hrun).
    lia.
  - rewrite (Hframe _ _ (config_kept_set T e path value) _ Hrun). lia.
  - rewrite (Hframe _ _ (config_kept_set_int T e path key value) _ Hrun). lia.
  - rewrite (Hframe _ _ (config_kept_set_string T e path key value) _ Hrun).
    lia.
  - rewrite (Hframe _ _ (config_kept_get T e path out) _ Hrun). lia.
  - rewrite (Hframe _ _ (config_kept_get_int T e path key) _ Hrun). lia.
  - rewrite (Hframe _ _ (config_kept_get_string T e path key) _ Hrun). lia.
  - rewrite (Hframe _ _ (config_kept_search T e path) _ Hrun). lia.
  - rewrite (Hframe _ _ (config_kept_watch T e path cb priv) _ Hrun). lia.
  - rewrite (Hframe _ _ (config_kept_provide T e path cb priv) _ Hrun). lia.
Qed.

Lemma count_inits_cons (c : env * api_call) cs :
  count_inits (c :: cs) = count_inits [c] + count_inits cs.
Proof.
  unfold count_inits. simpl. destruct (snd c); simpl; lia.
Qed.

Lemma count_inits_nonneg cs : 0 <= count_inits cs.
Proof. unfold count_inits. lia. Qed.

Lemma ref_count_after_calls cs :
  forall w w',
    0 <= ref_count (glob w) ->
    ref_count (glob w) + count_inits cs <= INT_MAX ->
    run_calls T cs w = Returned (tt, w') ->
    0 <= ref_count (glob w') <= ref_count (glob w) + count_inits cs.
Proof.
  induction cs as [| [e c] rest IH]; intros w w' H0 Hn Hrun.
  - simpl in Hrun. inversion Hrun; subst. unfold count_inits. simpl. lia.
  - rewrite count_inits_cons in *.
    pose proof (count_inits_nonneg rest) as Hrest.
    pose proof (count_inits_nonneg [(e, c)]) as Hone.
    simpl in Hrun. unfold bind in Hrun.
    destruct (run_call T e c w) as [[[] w1] |] eqn:Hc; [| discriminate].
    pose proof (ref_count_after_call e c w w1 H0 ltac:(lia) Hc) as H1.
    specialize (IH w1 w' ltac:(lia) ltac:(lia) Hrun). lia.
Qed.

End Users.

(** From the start of the process on, the reference count is never
    negative and never more than the number of calls of [apteryx_init]
    made so far, as long as that number fits an [int]. *)
Theorem ref_count_counts_users {B} (T : transport B)
    (cs : list (env * api_call)) (b : B) (w' : world B) :
  count_inits cs <= INT_MAX ->
  run_calls T cs (at_start b) = Returned (tt, w') ->
  0 <= ref_count (glob w') <= count_inits cs.
Proof.
  intros Hn Hrun.
  apply (ref_count_after_calls T cs (at_start b) w'); simpl; (lia || assumption).
Qed.

Lemma ref_count_counts_users_witness :
  let cs := [(linux, CallInit false); (linux, CallShutdown);
             (linux, CallShutdown); (linux, CallInit true);
             (linux, CallSearch None)] in
  let run := run_calls answering cs (at_start tt) in
  count_inits cs <= INT_MAX /\
  run = Returned (tt, final_world run (at_start tt)) /\
  0 <= ref_count (glob (final_world run (at_start tt))) <= count_inits cs.
Proof.
  intros cs run.
  assert (H1 : count_inits cs <= INT_MAX) by (vm_compute; discriminate).
  assert (H2 : run = Returned (tt, final_world run (at_start tt)))
    by reflexivity.
  repeat (split; [assumption |]).
  apply (ref_count_counts_users answering cs tt _ H1 H2).
Defined.

(** ** The listener thread *)

(** [start_client_thread] followed by [stop_client_thread] from
    another thread, in the four ways the listener can go.  If [pipe]
    failed, [thread_running] never became true and nothing is stopped.
    If [rpc_provide_service] could not start, the listener has cleaned
    up by itself, the three variables are at -1, false and -1, and
    nothing is stopped either.  If the service started and the listener
    leaves when asked, the three variables are back at -1, false and -1
    and the stop byte went to the write end of the pipe.  If it does not
    leave, it is cancelled, and [client_thread] and [stopfd] keep their
    values.  In the last two cases the endpoint of the process is
    gone. *)
Theorem listener_start_then_stop {B} (T : transport B) (e : env)
    (w : world B) :
  thread_running (glob w) = false ->
  new_thread e <> -1 -> new_thread e <> self e ->
  let run := (start_client_thread T e ;;; stop_client_thread T e) w in
  let created := (trace w ++ [EvThreadCreate (new_thread e)])%list in
  (pipefd e = None ->
     run = Returned (tt,
       {| glob := set_client_thread (new_thread e) (glob w);
          broker := broker w; trace := created |})) /\
  (forall rfd wfd, pipefd e = Some (rfd, wfd) ->
     rpc_provide_service T (service_id e) (broker w) = None ->
     run = Returned (tt,
       {| glob := set_client_thread (-1)
                    (set_thread_running false (set_stopfd (-1) (glob w)));
          broker := broker w; trace := created |})) /\
  (forall rfd wfd b, pipefd e = Some (rfd, wfd) ->
     rpc_provide_service T (service_id e) (broker w) = Some b ->
     listener_exits e = true ->
     run = Returned (tt,
       {| glob := set_client_thread (-1)
                    (set_thread_running false (set_stopfd (-1) (glob w)));
          broker := rpc_service_gone T (service_id e) b;
          trace := (created ++ [EvStopSignal wfd;
                                EvThreadExit (new_thread e)])%list |})) /\
  (forall rfd wfd b, pipefd e = Some (rfd, wfd) ->
     rpc_provide_service T (service_id e) (broker w) = Some b ->
     listener_exits e = false ->
     run = Returned (tt,
       {| glob := set_client_thread (new_thread e)
                    (set_thread_running false (set_stopfd wfd (glob w)));
          broker := rpc_service_gone T (service_id e) b;
          trace := (created ++ [EvStopSignal wfd;
                                EvThreadCancel (new_thread e)])%list |})).
Proof.
  intros Hr Hn Hs run created. subst run created.
  apply Z.eqb_neq in Hn, Hs. unfold bind.
  rewrite (start_client_thread_fresh T e w Hr).
  split; [| split; [| split]].
  - intros ->. rewrite stop_client_thread_idle; [reflexivity |].
    unfold listener_to_stop. simpl. rewrite Hr. reflexivity.
  - intros rfd wfd -> ->. rewrite stop_client_thread_idle; reflexivity.
  - intros rfd wfd b -> -> Hx.
    rewrite stop_client_thread_running;
      [| unfold listener_to_stop; simpl; rewrite Hn, Hs; reflexivity].
    rewrite Hx. simpl. reflexivity.
  - intros rfd wfd b -> -> Hx.
    rewrite stop_client_thread_running;
      [| unfold listener_to_stop; simpl; rewrite Hn, Hs; reflexivity].
    rewrite Hx. simpl. reflexivity.
Qed.

Lemma listener_start_then_stop_witness :
  let w := at_start tt in
  thread_running (glob w) = false /\
  new_thread linux <> -1 /\ new_thread linux <> self linux /\
  (start_client_thread answering linux ;;; stop_client_thread answering linux) w
  = Returned (tt,
      {| glob := initial_globals; broker := tt;
         trace := [EvThreadCreate 2; EvStopSignal 4; EvThreadExit 2] |}) /\
  (start_client_thread deaf linux ;;; stop_client_thread deaf linux) w
  = Returned (tt,
      {| glob := initial_globals; broker := tt;
         trace := [EvThreadCreate 2] |}).
Proof.
  intros w.
  assert (H1 : thread_running (glob w) = false) by reflexivity.
  assert (H2 : new_thread linux <> -1) by discriminate.
  assert (H3 : new_thread linux <> self linux) by discriminate.
  repeat (split; [assumption |]).
  split.
  - destruct (listener_start_then_stop answering linux w H1 H2 H3)
      as (_ & _ & H & _).
    apply (H 3 4 tt eq_refl eq_refl eq_refl).
  - destruct (listener_start_then_stop deaf linux w H1 H2 H3)
      as (_ & H & _).
    apply (H 3 4 eq_refl eq_refl).
Defined.

Section Registration.
Context {B : Type} (T : transport B).
Implicit Types (w : world B) (e : env).

(** What the tail of [apteryx_watch] and [apteryx_provide] makes of the
    world [w0] that the round trip left. *)
Lemma registered e (cb : Z) w0 :
  exists w',
    ((if negb (cb =? 0) then start_client_thread T e else ret tt) ;;; ret true)
      w0
      = Returned (true, w') /\
    (cb = 0 \/ thread_running (glob w0) = true -> w' = w0) /\
    (cb <> 0 -> thread_running (glob w0) = false ->
       trace w' = (trace w0 ++ [EvThreadCreate (new_thread e)])%list /\
       match pipefd e with
       | None =>
           glob w' = set_client_thread (new_thread e) (glob w0) /\
           broker w' = broker w0
       | Some (_, wfd) =>
           match rpc_provide_service T (service_id e) (broker w0) with
           | Some b' =>
               glob w' = set_thread_running true
                           (set_stopfd wfd
                              (set_client_thread (new_thread e) (glob w0))) /\
               broker w' = b'
           | None =>
               glob w' = set_client_thread (-1)
                           (set_thread_running false
                              (set_stopfd (-1) (glob w0))) /\
               broker w' = broker w0
           end
       end).
Proof.
  unfold bind. destruct (Z.eqb_spec cb 0) as [Hz | Hnz]; simpl.
  - exists w0. split; [reflexivity |]. split; [reflexivity |].
    intros Hcb. contradiction.
  - destruct (thread_running (glob w0)) eqn:Hr.
    + rewrite (start_client_thread_running T e w0 Hr). exists w0.
      split; [reflexivity |]. split; [reflexivity |].
      intros _ Hf. discriminate Hf.
    + rewrite (start_client_thread_fresh T e w0 Hr). eexists.
      split; [reflexivity |]. split.
      * intros [? | ?]; [contradiction | discriminate].
      * intros _ _. destruct (pipefd e) as [[rfd wfd] |];
          [destruct (rpc_provide_service T (service_id e) (broker w0)) |];
          repeat split; reflexivity.
Qed.

End Registration.

(** A successful [apteryx_watch] starts the listener at most once.  With
    a null callback, or with the listener running, the process is as the
    round trip left it.  Otherwise one thread is created: if [pipe]
    fails only [client_thread] is set; if the service starts the
    listener runs, with the write end of the pipe in [stopfd]; if the
    service cannot start the listener has cleaned up, and the three
    variables are at -1, false and -1. *)
Theorem registration_starts_listener_once {B} (T : transport B) (e : env)
    (w : world B) (path : option string) (cb priv : Z) b evs r :
  let m := {| watch_path := watch_target path; watch_value := [];
              watch_id := wrap_unsigned 64 (pid e);
              watch_cb := handle_of_ptr cb;
              watch_priv := handle_of_ptr priv |} in
  let w0 := after_rpc (ReqWatch m) b evs w in
  not_slash_first (watch_target path) = false ->
  rpc_connect_service T (broker w) = true ->
  apteryx__server__watch T m (broker w) = (b, evs, Closure r) ->
  exists w',
    apteryx_watch T e path cb priv w = Returned (true, w') /\
    (cb = 0 \/ thread_running (glob w) = true -> w' = w0) /\
    (cb <> 0 -> thread_running (glob w) = false ->
       trace w' = (trace w0 ++ [EvThreadCreate (new_thread e)])%list /\
       match pipefd e with
       | None =>
           glob w' = set_client_thread (new_thread e) (glob w) /\
           broker w' = b
       | Some (_, wfd) =>
           match rpc_provide_service T (service_id e) b with
           | Some b' =>
               glob w' = set_thread_running true
                           (set_stopfd wfd
                              (set_client_thread (new_thread e) (glob w))) /\
               broker w' = b'
           | None =>
               glob w' = set_client_thread (-1)
                           (set_thread_running false
                              (set_stopfd (-1) (glob w))) /\
               broker w' = b
           end
       end).
Proof.
  intros m w0 Hp Hc Hs.
  rewrite (apteryx_watch_reply T e path cb priv w b evs _ Hp Hc Hs).
  destruct (registered T e cb w0) as (w' & Hrun & Hsame & Hnew).
  exists w'. split; [exact Hrun |]. split; [exact Hsame | exact Hnew].
Qed.

Lemma registration_starts_listener_once_witness :
  let w := at_start tt in
  let run1 := apteryx_watch answering linux (Some "/entity/*") test_cb 0 w in
  let w1 := final_world run1 w in
  let run2 := apteryx_watch answering linux (Some "/system/*") test_cb 0 w1 in
  not_slash_first (watch_target (Some "/system/*")) = false /\
  rpc_connect_service answering (broker w1) = true /\
  thread_running (glob w1) = true /\
  run2 = Returned (true,
           after_rpc
             (ReqWatch {| watch_path := "/system/*"; watch_value := [];
                          watch_id := wrap_unsigned 64 (pid linux);
                          watch_cb := handle_of_ptr test_cb;
                          watch_priv := handle_of_ptr 0 |}) tt [] w1).
Proof.
  intros w run1 w1 run2.
  assert (H1 : not_slash_first (watch_target (Some "/system/*")) = false)
    by reflexivity.
  assert (H2 : rpc_connect_service answering (broker w1) = true)
    by reflexivity.
  assert (H3 : thread_running (glob w1) = true) by reflexivity.
  repeat (split; [assumption |]).
  destruct (registration_starts_listener_once answering linux w1
              (Some "/system/*") test_cb 0 tt [] _ H1 H2 eq_refl)
    as (w2 & Hrun & Hsame & _).
  rewrite (Hsame (or_intror H3)) in Hrun. exact Hrun.
Defined.

(** ** Provided values *)

Lemma apteryx__provide_dispatch (user : provider) (cb priv id : Z)
    (path : string) :
  is_pointer cb -> cb <> 0 -> is_pointer priv ->
  apteryx__provide user {| provide_path := path; provide_id := id;
                           provide_cb := cb; provide_priv := priv |}
  = ([EvProvideCb cb path priv;
      EvGetResult (user cb path priv)
        (size_of (default [] (user cb path priv)))],
     {| result_value := default [] (user cb path priv) |}).
Proof.
  intros Hcb Hnz Hpriv. unfold apteryx__provide. simpl.
  rewrite (ptr_of_handle_id cb Hcb), (ptr_of_handle_id priv Hpriv).
  destruct (Z.eqb_spec cb 0); [contradiction |]. reflexivity.
Qed.

Lemma get_result_of_bytes (v : bytes) :
  get_result (Closure (Some {| result_value := v |}))
  = match v with
    | [] => (false, {| out_value := None; out_size := 0 |})
    | _ :: _ => (true, {| out_value := Some v; out_size := size_of v |})
    end.
Proof. destruct v; reflexivity. Qed.

(** [apteryx__provide] calls the callback behind the handle with the
    path and the private pointer of the message.  If the broker hands
    the result on as the reply to a GET, [apteryx_get] returns the bytes
    the callback left; a callback that left nothing, or an empty buffer,
    looks like an absent value. *)
Theorem provided_value_reaches_getter {B} (T : transport B) (e : env)
    (w : world B) (user : provider) (cb priv id : Z) (path p : string)
    (out : outputs) b evs :
  let m := {| provide_path := path; provide_id := id;
              provide_cb := cb; provide_priv := priv |} in
  is_pointer cb -> cb <> 0 -> is_pointer priv ->
  not_slash_first p = false ->
  rpc_connect_service T (broker w) = true ->
  apteryx__server__get T {| get_path := p |} (broker w)
    = (b, evs, Closure (Some (snd (apteryx__provide user m)))) ->
  fst (apteryx__provide user m)
  = [EvProvideCb cb path priv;
     EvGetResult (user cb path priv)
       (size_of (default [] (user cb path priv)))] /\
  apteryx_get T e p out w
  = Returned (match user cb path priv with
              | Some (c :: v) =>
                  (true, {| out_value := Some (c :: v);
                            out_size := size_of (c :: v) |})
              | _ => (false, {| out_value := None; out_size := 0 |})
              end,
              after_rpc (ReqGet {| get_path := p |}) b evs w).
Proof.
  intros m Hcb Hnz Hpriv Hp Hc Hs. subst m.
  rewrite (apteryx__provide_dispatch user cb priv id path Hcb Hnz Hpriv) in *.
  split; [reflexivity |].
  rewrite (apteryx_get_reply T e p out w b evs _ Hp Hc Hs). simpl.
  rewrite get_result_of_bytes.
  destruct (user cb path priv) as [[| c v] |]; reflexivity.
Qed.

Lemma provided_value_reaches_getter_witness :
  let user : provider := fun _ _ _ => Some (list_byte_of_string "up") in
  let m := {| provide_path := "/interfaces/eth0/state"; provide_id := 4711;
              provide_cb := test_cb; provide_priv := 0 |} in
  let T := canned NoResponse
             (Closure (Some (snd (apteryx__provide user m)))) NoResponse in
  let w := at_start tt in
  is_pointer test_cb /\ test_cb <> 0 /\ is_pointer 0 /\
  apteryx_get T linux "/interfaces/eth0/state"
    {| out_value := None; out_size := 0 |} w
  = Returned ((true, {| out_value := Some (list_byte_of_string "up");
                        out_size := 2 |}),
              after_rpc (ReqGet {| get_path := "/interfaces/eth0/state" |})
                tt [] w).
Proof.
  intros user m T w.
  assert (H1 : is_pointer test_cb) by (unfold is_pointer, test_cb; lia).
  assert (H2 : test_cb <> 0) by discriminate.
  assert (H3 : is_pointer 0) by (unfold is_pointer; lia).
  repeat (split; [assumption |]).
  destruct (provided_value_reaches_getter T linux w user test_cb 0 4711
              "/interfaces/eth0/state" "/interfaces/eth0/state"
              {| out_value := None; out_size := 0 |} tt []
              H1 H2 H3 eq_refl eq_refl eq_refl) as [_ H].
  exact H.
Defined.

(** ** Calls that return *)

Section Returning.
Context {B : Type} (T : transport B).
Implicit Types (w : world B) (e : env) (g : globals).

Lemma returns_ret {A} (P : world B -> Prop) (a : A) (Q : A -> Prop) :
  Q a -> returns_keeping P (ret a) Q.
Proof. intros HQ w H. exists a, w. repeat split; assumption. Qed.

Lemma returns_bind {A C} (P : world B -> Prop) (m : call A) (k : A -> call C)
    (Q : A -> Prop) (R : C -> Prop) :
  returns_keeping P m Q -> (forall a, Q a -> returns_keeping P (k a) R) ->
  returns_keeping P (bind m k) R.
Proof.
  intros Hm Hk w H. destruct (Hm w H) as (a & w1 & Hrun & H1 & Ha).
  destruct (Hk a Ha w1 H1) as (c & w2 & Hrun2 & H2 & Hc).
  exists c, w2. unfold bind. rewrite Hrun. repeat split; assumption.
Qed.

Lemma returns_forget {A} (P : world B -> Prop) (m : call A) (Q : A -> Prop) :
  returns_keeping P m Q -> returns_keeping P (forget m) (fun _ => True).
Proof.
  intros Hm. unfold forget. eapply returns_bind; [exact Hm |].
  intros a _. apply returns_ret. exact I.
Qed.

(** A call that returns and keeps the globals. *)
Ltac returns_quietly g Hd :=
  intros w Hw; unfold globals_are in *; subst g;
  cbv [bind ret get_glob put_glob emit invoke connect debug_flag c_assert
       run_closure handle_ok_response];
  simpl; rewrite ?Hd; simpl;
  repeat (case_match; simpl in *; simplify_eq; simpl in *;
          rewrite ?Hd, ?orb_true_r in *; simpl in *; try discriminate);
  try (eexists; eexists; split; [reflexivity | split; [reflexivity | exact I]]).

Lemma returns_prune e p g :
  debug g = false ->
  returns_keeping (globals_are g) (apteryx_prune T e p) (fun _ => True).
Proof. intros Hd. unfold apteryx_prune. returns_quietly g Hd. Qed.

Lemma returns_set e p v g :
  debug g = false ->
  returns_keeping (globals_are g) (apteryx_set T e p v) (fun _ => True).
Proof. intros Hd. unfold apteryx_set. returns_quietly g Hd. Qed.

Lemma returns_get e p out g :
  debug g = false ->
  returns_keeping (globals_are g) (apteryx_get T e p out) (fun _ => True).
Proof. intros Hd. unfold apteryx_get. returns_quietly g Hd. Qed.

Lemma returns_search e p g :
  debug g = false ->
  returns_keeping (globals_are g) (apteryx_search T e p) (fun _ => True).
Proof. intros Hd. unfold apteryx_search. returns_quietly g Hd. Qed.

(** An initialised dump does not abort and does not return false. *)
Lemma returns_dump e fuel g :
  debug g = false -> 0 < ref_count g ->
  forall p, returns_keeping (globals_are g) (apteryx_dump T e fuel p) walked.
Proof.
  intros Hd Hpos. induction fuel as [| fuel IH]; intros p; simpl.
  - apply returns_ret. left. reflexivity.
  - intros w Hw. unfold bind at 1, get_glob.
    rewrite Hw. destruct (Z.leb_spec (ref_count g) 0) as [Hle | _]; [lia |].
    revert w Hw.
    eapply returns_bind; [apply returns_get, Hd |].
    intros r _. eapply returns_bind with (Q := fun _ => True).
    { destruct r as [[] [[v |] m]]; try (apply returns_ret; exact I).
      intros w Hw. eexists; eexists.
      split; [reflexivity |]. split; [exact Hw | exact I]. }
    intros _ _. eapply returns_bind; [apply returns_search, Hd |].
    intros children _. induction children as [| child rest IHc].
    + apply returns_ret. right. reflexivity.
    + destruct (negb _); [| exact IHc].
      eapply returns_bind; [apply IH |].
      intros [r' |] _; [exact IHc | apply returns_ret; left; reflexivity].
Qed.

Lemma returns_data_call e c g :
  is_data_call c = true -> is_dump c = false -> debug g = false ->
  returns_keeping (globals_are g) (run_call T e c) (fun _ => True).
Proof.
  intros Hc Hdump Hd.
  destruct c; try discriminate Hc; try discriminate Hdump; simpl.
  - eapply returns_forget. apply returns_prune, Hd.
  - eapply returns_forget. apply returns_set, Hd.
  - eapply returns_forget. unfold apteryx_set_int. destruct (negb _);
      [apply returns_set, Hd | apply returns_ret; exact I].
  - eapply returns_forget. unfold apteryx_set_string. destruct (negb _);
      [apply returns_set, Hd | apply returns_ret; exact I].
  - eapply returns_forget. apply returns_get, Hd.
  - eapply returns_forget with (Q := fun _ => True).
    unfold apteryx_get_int. destruct (negb _); [| apply returns_ret; exact I].
    eapply returns_bind; [apply returns_get, Hd |].
    intros [[] [[v |] m]] _; apply returns_ret; exact I.
  - eapply returns_forget with (Q := fun _ => True).
    unfold apteryx_get_string. destruct (negb _);
      [| apply returns_ret; exact I].
    eapply returns_bind; [apply returns_get, Hd |].
    intros r _. apply returns_ret. exact I.
  - eapply returns_forget. apply returns_search, Hd.
Qed.

Lemma returns_registration (c : bool) e w :
  exists w',
    ((if c then start_client_thread T e else ret tt) ;;; ret true) w
    = Returned (true, w').
Proof.
  unfold bind. destruct c; [| eexists; reflexivity].
  destruct (start_client_thread_returns T e w) as (w' & -> & _).
  eexists. reflexivity.
Qed.

Lemma returns_lifecycle_call e c w :
  is_data_call c = false -> debug (glob w) = false ->
  exists w', run_call T e c w = Returned (tt, w').
Proof.
  intros Hc Hd. destruct c; try discriminate Hc; simpl; unfold forget.
  - unfold bind at 1. rewrite apteryx_init_eq. eexists. reflexivity.
  - unfold bind at 1.
    destruct (Z.le_gt_cases (ref_count (glob w)) 0) as [Hle | Hgt].
    + rewrite apteryx_shutdown_not_positive by exact Hle. eexists. reflexivity.
    + cbv [apteryx_shutdown bind get_glob put_glob ret]. simpl.
      destruct (Z.leb_spec (ref_count (glob w)) 0); [lia |].
      destruct (0 <? _); [eexists; reflexivity |].
      match goal with
      | |- context [stop_client_thread T e ?w0] =>
          destruct (stop_client_thread_returns T e w0) as (w1 & -> & _)
      end.
      eexists. reflexivity.
  - unfold bind at 1.
    destruct (not_slash_first (watch_target path)) eqn:Hp.
    + unfold apteryx_watch. fold (watch_target path). rewrite Hp.
      cbv [bind ret get_glob debug_flag c_assert]. rewrite Hd. simpl.
      rewrite orb_true_r. eexists. reflexivity.
    + destruct (rpc_connect_service T (broker w)) eqn:Hconn.
      * destruct (apteryx__server__watch T
                    {| watch_path := watch_target path; watch_value := [];
                       watch_id := wrap_unsigned 64 (pid e);
                       watch_cb := handle_of_ptr cb;
                       watch_priv := handle_of_ptr priv |} (broker w))
          as [[b evs] res] eqn:Hs.
        rewrite (apteryx_watch_reply T e path cb priv w b evs res Hp Hconn Hs).
        destruct res as [| r]; [eexists; reflexivity |].
        destruct (returns_registration (negb (cb =? 0)) e
                    (after_rpc
                       (ReqWatch
                          {| watch_path := watch_target path;
                             watch_value := [];
                             watch_id := wrap_unsigned 64 (pid e);
                             watch_cb := handle_of_ptr cb;
                             watch_priv := handle_of_ptr priv |}) b evs w))
          as (w' & ->).
        eexists. reflexivity.
      * unfold apteryx_watch. fold (watch_target path). rewrite Hp.
        cbv [bind ret connect]. simpl. rewrite Hconn. eexists. reflexivity.
  - unfold bind at 1.
    destruct (not_slash_first path) eqn:Hp.
    + rewrite (apteryx_provide_rejects T e path cb priv w Hp).
      rewrite rejected_quietly by exact Hd. eexists. reflexivity.
    + destruct (rpc_connect_service T (broker w)) eqn:Hconn.
      * destruct (apteryx__server__provide T
                    {| provide_path := path;
                       provide_id := wrap_unsigned 64 (pid e);
                       provide_cb := handle_of_ptr cb;
                       provide_priv := handle_of_ptr priv |} (broker w))
          as [[b evs] res] eqn:Hs.
        rewrite (apteryx_provide_reply T e path cb priv w b evs res Hp Hconn
                   Hs).
        destruct res as [| r]; [eexists; reflexivity |].
        destruct (returns_registration (negb (cb =? 0)) e
                    (after_rpc
                       (ReqProvide
                          {| provide_path := path;
                             provide_id := wrap_unsigned 64 (pid e);
                             provide_cb := handle_of_ptr cb;
                             provide_priv := handle_of_ptr priv |}) b evs w))
          as (w' & ->).
        eexists. reflexivity.
      * unfold apteryx_provide. rewrite Hp.
        cbv [bind ret connect]. simpl. rewrite Hconn. eexists. reflexivity.
Qed.

Lemma apteryx_dump_not_initialised e fuel p w :
  ref_count (glob w) <= 0 -> NDEBUG e = false ->
  apteryx_dump T e (S fuel) p w = Aborted.
Proof.
  intros Hle Hn. simpl. cbv [bind get_glob c_assert]. simpl.
  destruct (Z.leb_spec (ref_count (glob w)) 0) as [_ | Hgt]; [| lia].
  rewrite Hn. simpl.
  destruct (Z.ltb_spec 0 (ref_count (glob w))); [lia | reflexivity].
Qed.

End Returning.

(** With the debug flag off no assertion of the path checks can fire.
    Every call other than [apteryx_dump] returns, whatever the path and
    whatever the broker does.  [apteryx_dump] in an initialised process
    is not aborted and never returns false: for as long as it is
    followed it is still walking or has returned true.  Whether its
    walk ends is up to the tree that the broker reports.  In a process
    whose reference count is not positive [apteryx_dump] fails the one
    assertion that does not look at the flag. *)
Theorem calls_return_without_debug {B} (T : transport B) (e : env)
    (w : world B) :
  debug (glob w) = false ->
  (forall c, is_dump c = false ->
     exists w', run_call T e c w = Returned (tt, w')) /\
  (forall fuel p, 0 < ref_count (glob w) ->
     exists r w', apteryx_dump T e fuel p w = Returned (r, w') /\ walked r) /\
  (forall fuel p, ref_count (glob w) <= 0 -> NDEBUG e = false ->
     apteryx_dump T e (S fuel) p w = Aborted).
Proof.
  intros Hd. split; [| split].
  - intros c Hdump. destruct (is_data_call c) eqn:Hc.
    + destruct (returns_data_call T e c (glob w) Hc Hdump Hd w eq_refl)
        as ([] & w' & Hrun & _).
      exists w'. exact Hrun.
    + apply returns_lifecycle_call; assumption.
  - intros fuel p Hpos.
    destruct (returns_dump T e fuel (glob w) Hd Hpos p w eq_refl)
      as (r & w' & Hrun & _ & Hr).
    exists r, w'. split; assumption.
  - intros fuel p Hle Hn. apply apteryx_dump_not_initialised; assumption.
Qed.

Lemma calls_return_without_debug_witness :
  let w := at_start tt in
  debug (glob w) = false /\
  (exists w',
     run_call answering linux (CallWatch (Some "entity") test_cb 0) w
     = Returned (tt, w')) /\
  apteryx_dump answering linux 1 "/" w = Aborted.
Proof.
  intros w.
  assert (H1 : debug (glob w) = false) by reflexivity.
  split; [exact H1 |].
  destruct (calls_return_without_debug answering linux w H1)
    as (Hcall & _ & Habort).
  split.
  - apply (Hcall (CallWatch (Some "entity") test_cb 0) eq_refl).
  - apply (Habort 0%nat "/"); [simpl; lia | reflexivity].
Defined.

(** ** Dump *)

Section Dump.
Context {B : Type}.
Implicit Types (w : world B) (e : env) (T : transport B).

Lemma bind_ext {A C} (m1 m2 : call (B := B) A) (k1 k2 : A -> call C) :
  (forall w, m1 w = m2 w) -> (forall a w, k1 a w = k2 a w) ->
  forall w, bind m1 k1 w = bind m2 k2 w.
Proof.
  intros Hm Hk w. unfold bind. rewrite Hm.
  destruct (m2 w) as [[a w'] |]; [apply Hk | reflexivity].
Qed.

Lemma apteryx_get_same_reads T1 T2 e p out w :
  same_reads T1 T2 -> apteryx_get T1 e p out w = apteryx_get T2 e p out w.
Proof.
  intros (Hc & Hg & _). unfold apteryx_get.
  destruct (not_slash_first p); [reflexivity |].
  cbv [bind connect invoke]. simpl. rewrite Hc.
  destruct (negb _); [reflexivity |]. simpl. rewrite Hg. reflexivity.
Qed.

Lemma apteryx_search_same_reads T1 T2 e path w :
  same_reads T1 T2 -> apteryx_search T1 e path w = apteryx_search T2 e path w.
Proof.
  intros (Hc & _ & Hs). unfold apteryx_search.
  destruct (is_root path).
  - cbv [bind connect invoke]. simpl. rewrite Hc.
    destruct (negb _); [reflexivity |]. simpl. rewrite Hs. reflexivity.
  - destruct (_ || _); [reflexivity |].
    cbv [bind connect invoke]. simpl. rewrite Hc.
    destruct (negb _); [reflexivity |]. simpl. rewrite Hs. reflexivity.
Qed.

Lemma apteryx_dump_same_reads T1 T2 e fuel :
  same_reads T1 T2 ->
  forall p w, apteryx_dump T1 e fuel p w = apteryx_dump T2 e fuel p w.
Proof.
  intros Hsame. induction fuel as [| fuel IH]; intros p w; [reflexivity |].
  cbn [apteryx_dump]. apply bind_ext; [reflexivity |].
  intros g w1. destruct (ref_count g <=? 0); [reflexivity |].
  apply bind_ext; [intros; apply apteryx_get_same_reads, Hsame |].
  intros r w2. apply bind_ext; [reflexivity |].
  intros _ w3. apply bind_ext; [intros; apply apteryx_search_same_reads, Hsame |].
  intros children. induction children as [| child rest IHc]; intros w4.
  - reflexivity.
  - destruct (negb _); [| apply IHc].
    apply bind_ext; [apply IH |].
    intros [r' |] w5; [apply IHc | reflexivity].
Qed.

End Dump.

(** [apteryx_dump] only reads: what it returns, sends and prints is
    the same for two transports that connect alike and answer GET and
    SEARCH alike, whatever they do with the other requests. *)
Theorem dump_only_reads {B} (T1 T2 : transport B) (e : env) (fuel : nat)
    (p : string) (w : world B) :
  same_reads T1 T2 ->
  apteryx_dump T1 e fuel p w = apteryx_dump T2 e fuel p w.
Proof. intros H. apply apteryx_dump_same_reads, H. Qed.

Lemma dump_only_reads_witness :
  let T1 := answering in
  let T2 := canned NoResponse (Closure (Some {| result_value := [] |}))
              (Closure (Some {| result_paths := [] |})) in
  same_reads T1 T2 /\
  apteryx_dump T1 linux 3 "/" two_users = apteryx_dump T2 linux 3 "/" two_users.
Proof.
  intros T1 T2.
  assert (H : same_reads T1 T2) by (repeat split).
  split; [exact H |].
  apply (dump_only_reads T1 T2 linux 3 "/" two_users H).
Defined.

(** [apteryx_dump] on a path that does not end in a slash (and is no
    root) gets the value of the path and then has its search turned
    away: in debug mode the process is aborted, otherwise no child is
    visited and the call returns true. *)
Theorem dump_needs_trailing_slash {B} (T : transport B) (e : env)
    (fuel : nat) (p : string) (w : world B) :
  0 < ref_count (glob w) ->
  is_root (Some p) = false ->
  not_slash_first p = false -> not_slash_last p = true ->
  (debug (glob w) = true -> NDEBUG e = false ->
   apteryx_dump T e (S fuel) p w = Aborted) /\
  (debug (glob w) = false ->
   apteryx_dump T e (S fuel) p w
   = match apteryx_get T e p {| out_value := None; out_size := 0 |} w with
     | Returned ((true, {| out_value := Some v; out_size := size |}), w1) =>
         Returned (Some true,
           {| glob := glob w1; broker := broker w1;
              trace := (trace w1
                        ++ [EvDump p (until_nul (take (Z.to_nat size) v))])%list
           |})
     | Returned (_, w1) => Returned (Some true, w1)
     | Aborted => Aborted
     end).
Proof.
  intros Hpos Hroot Hfirst Hlast.
  assert (Hbad : not_slash_first p || not_slash_last p || strstr p "//" = true).
  { rewrite Hlast, orb_true_r. reflexivity. }
  assert (Hdump : apteryx_dump T e (S fuel) p w
    = match apteryx_get T e p {| out_value := None; out_size := 0 |} w with
      | Returned (r, w1) =>
          let w2 :=
            match r with
            | (true, {| out_value := Some v; out_size := size |}) =>
                {| glob := glob w1; broker := broker w1;
                   trace := (trace w1
                     ++ [EvDump p (until_nul (take (Z.to_nat size) v))])%list |}
            | _ => w1
            end in
          match rejected e ([] : list string) w2 with
          | Returned (_, w3) => Returned (Some true, w3)
          | Aborted => Aborted
          end
      | Aborted => Aborted
      end).
  { cbn [apteryx_dump]. unfold bind at 1, get_glob.
    destruct (Z.leb_spec (ref_count (glob w)) 0) as [Hle | _]; [lia |].
    unfold bind at 1.
    destruct (apteryx_get T e p _ w) as [[r w1] |]; [| reflexivity].
    unfold bind at 1.
    destruct r as [[] [[v |] size]]; cbv [emit ret]; cbn zeta;
      unfold bind at 1;
      rewrite (apteryx_search_rejects T e p _ Hroot Hbad);
      unfold rejected; destruct (_ && _); reflexivity. }
  rewrite Hdump.
  pose proof (globals_kept_get T e p {| out_value := None; out_size := 0 |}
                (glob w) w eq_refl) as Hkept.
  destruct (apteryx_get T e p _ w) as [[r w1] |]; unfold globals_are in Hkept.
  - split.
    + intros Hd Hn. cbn zeta.
      rewrite rejected_aborts; [reflexivity | | exact Hn].
      destruct r as [[] [[v |] size]]; simpl; rewrite Hkept; exact Hd.
    + intros Hd. cbn zeta.
      rewrite rejected_quietly.
      * destruct r as [[] [[v |] size]]; reflexivity.
      * destruct r as [[] [[v |] size]]; simpl; rewrite Hkept; exact Hd.
  - split; [| reflexivity].
    intros _ _. reflexivity.
Qed.

Lemma dump_needs_trailing_slash_witness :
  let w := with_glob (set_debug true (glob two_users)) two_users in
  0 < ref_count (glob w) /\
  is_root (Some "/entity") = false /\
  not_slash_first "/entity" = false /\ not_slash_last "/entity" = true /\
  debug (glob w) = true /\ NDEBUG linux = false /\
  apteryx_dump answering linux 1 "/entity" w = Aborted.
Proof.
  intros w.
  assert (H1 : 0 < ref_count (glob w)) by reflexivity.
  assert (H2 : is_root (Some "/entity") = false) by reflexivity.
  assert (H3 : not_slash_first "/entity" = false) by reflexivity.
  assert (H4 : not_slash_last "/entity" = true) by reflexivity.
  assert (H5 : debug (glob w) = true) by reflexivity.
  assert (H6 : NDEBUG linux = false) by reflexivity.
  repeat (split; [assumption |]).
  apply (dump_needs_trailing_slash answering linux 0 "/entity" w H1 H2 H3 H4);
    assumption.
Defined.

(** ** The outputs of get *)

(** On a path that passes the check, [apteryx_get] returns true
    exactly when it hands back a buffer, the buffer is not empty and
    [*size] is its length; when it returns false, [*value] is NULL and
    [*size] is 0. *)
Theorem get_result_shape {B} (T : transport B) (e : env) (w w' : world B)
    (p : string) (out0 out : outputs) (ok : bool) :
  not_slash_first p = false ->
  apteryx_get T e p out0 w = Returned ((ok, out), w') ->
  match out_value out with
  | Some v => ok = true /\ out_size out = size_of v /\ 0 < out_size out
  | None => ok = false /\ out_size out = 0
  end.
Proof.
  intros Hp Hget.
  destruct (rpc_connect_service T (broker w)) eqn:Hc.
  - destruct (apteryx__server__get T {| get_path := p |} (broker w))
      as [[b evs] res] eqn:Hs.
    rewrite (apteryx_get_reply T e p out0 w b evs res Hp Hc Hs) in Hget.
    destruct res as [| [r |]].
    + inversion Hget; subst. simpl. split; reflexivity.
    + destruct (Z.eq_dec (size_of (result_value r)) 0) as [Hz | Hnz].
      * rewrite (get_result_empty r Hz) in Hget. inversion Hget; subst.
        simpl. split; reflexivity.
      * rewrite (get_result_bytes r Hnz) in Hget. inversion Hget; subst.
        simpl. repeat split. unfold size_of in *. lia.
    + inversion Hget; subst. simpl. split; reflexivity.
  - rewrite (apteryx_get_refused T e p out0 w Hp Hc) in Hget.
    inversion Hget; subst. simpl. split; reflexivity.
Qed.

Lemma get_result_shape_witness :
  let T := canned NoResponse
             (Closure (Some {| result_value := list_byte_of_string "up" |}))
             NoResponse in
  let w := at_start tt in
  let run := apteryx_get T linux "/interfaces/eth0/state"
               {| out_value := None; out_size := 7 |} w in
  let out := {| out_value := Some (list_byte_of_string "up"); out_size := 2 |} in
  not_slash_first "/interfaces/eth0/state" = false /\
  run = Returned ((true, out), final_world run w) /\
  true = true /\ out_size out = size_of (list_byte_of_string "up") /\
  0 < out_size out.
Proof.
  intros T w run out.
  assert (H1 : not_slash_first "/interfaces/eth0/state" = false) by reflexivity.
  assert (H2 : run = Returned ((true, out), final_world run w)) by reflexivity.
  repeat (split; [assumption |]).
  apply (get_result_shape T linux w (final_world run w)
           "/interfaces/eth0/state" {| out_value := None; out_size := 7 |}
           out true H1 H2).
Defined.

(** ** Shutdown on the listener thread *)

(** The last user's [apteryx_shutdown] stops nothing when no
    listener is running, when there is no listener thread, or when it is
    called on the listener thread itself: no stop byte is written,
    [stopfd] and [client_thread] keep their values and only
    [thread_running] is cleared. *)
Theorem last_shutdown_spares_the_caller {B} (T : transport B) (e : env)
    (w : world B) :
  ref_count (glob w) = 1 ->
  thread_running (glob w) = false \/ client_thread (glob w) = -1
    \/ client_thread (glob w) = self e ->
  apteryx_shutdown T e w
  = Returned (true,
      with_glob (set_thread_running false (set_ref_count 0 (glob w))) w).
Proof.
  intros H1 Hcase.
  apply (apteryx_shutdown_nothing_to_stop T e w H1).
  unfold listener_to_stop. destruct Hcase as [-> | [-> | ->]].
  - reflexivity.
  - rewrite andb_false_r. reflexivity.
  - rewrite Z.eqb_refl, andb_false_r. reflexivity.
Qed.

Lemma last_shutdown_spares_the_caller_witness :
  let e := {| NDEBUG := false; pid := 4711; self := 2; new_thread := 5;
              pipefd := Some (6, 7); listener_exits := true;
              heap_after := [] |} in
  let w := {| glob := {| debug := false; ref_count := 1; stopfd := 4;
                         client_thread := 2; thread_running := true |};
              broker := tt; trace := [] |} in
  ref_count (glob w) = 1 /\ client_thread (glob w) = self e /\
  apteryx_shutdown answering e w
  = Returned (true,
      {| glob := {| debug := false; ref_count := 0; stopfd := 4;
                    client_thread := 2; thread_running := false |};
         broker := tt; trace := [] |}).
Proof.
  intros e w.
  assert (H1 : ref_count (glob w) = 1) by reflexivity.
  assert (H2 : client_thread (glob w) = self e) by reflexivity.
  repeat (split; [assumption |]).
  apply (last_shutdown_spares_the_caller answering e w H1
           (or_intror (or_intror H2))).
Defined.
